(** * Quantized pose-head kernels, stream movers and host helpers

    A shallow embedding of the Versal pose-head overlay:
    - [pose_head_params.hpp]: the head constants and [sat_q15];
    - [pose3d_head_kernel.cpp], [world_head_kernel.cpp],
      [flag_head_kernel.cpp]: the three fully-connected head kernels;
    - [feat_mover.cpp], [output_mover.cpp]: the memory/stream movers;
    - [host_overlay.cpp]: [load_bin], [save_txt] and the buffer sizes.

    Integers of the source are modelled as [Z] with the wrap-around of
    their C++ type written out; streams and buffers are lists. *)

From Stdlib Require Import ZArith Lia String Ascii DecimalString DecimalZ DecimalPos.
From stdpp Require Import base list strings.

Local Open Scope Z_scope.

(** ** Fixed-width integers *)

(** Two's complement reading of the low [w] bits of [x]: the value a
    [w]-bit signed integer holds after a conversion or a wrapped
    operation. *)
Definition wrap_signed (w : Z) (x : Z) : Z :=
  (x + 2 ^ (w - 1)) mod 2 ^ w - 2 ^ (w - 1).

(** [static_cast<int16_t>] and [static_cast<int32_t>]. *)
Definition cast_int16 (x : Z) : Z := wrap_signed 16 x.
Definition cast_int32 (x : Z) : Z := wrap_signed 32 x.

Definition cast_int64 (x : Z) : Z := wrap_signed 64 x.

(** Reduction of an [unsigned int] and of a [std::size_t] expression. *)
Definition cast_uint32 (x : Z) : Z := x mod 2 ^ 32.
Definition cast_uint64 (x : Z) : Z := x mod 2 ^ 64.

Definition is_int16 (x : Z) : Prop := -32768 <= x <= 32767.
Definition is_int32 (x : Z) : Prop := -2147483648 <= x <= 2147483647.
Definition is_uint32 (x : Z) : Prop := 0 <= x < 4294967296.

(** ** pose_head_params.hpp *)

Record head_config := HeadConfig {
  IN_CH : Z;
  OUT_CH : Z;
  OUT_CH_PAD : Z;
  SHIFT : Z
}.

Definition POSE3D_IN_CH : Z := 1152.
Definition WORLD_IN_CH : Z := 1152.
Definition FLAG_IN_CH : Z := 1152.

Definition POSE3D_OUT_CH : Z := 195.
Definition WORLD_OUT_CH : Z := 117.
Definition FLAG_OUT_CH : Z := 1.

Definition POSE3D_OUT_CH_PAD : Z := POSE3D_OUT_CH + 5.
Definition WORLD_OUT_CH_PAD : Z := WORLD_OUT_CH + 3.
Definition FLAG_OUT_CH_PAD : Z := FLAG_OUT_CH + 7.

Definition POSE3D_ROW_STRIDE : Z := 1 + POSE3D_IN_CH.
Definition WORLD_ROW_STRIDE : Z := 1 + WORLD_IN_CH.
Definition FLAG_ROW_STRIDE : Z := 1 + FLAG_IN_CH.

Definition POSE3D_SHIFT : Z := 15.
Definition WORLD_SHIFT : Z := 15.
Definition FLAG_SHIFT : Z := 15.

Definition POSE3D : head_config :=
  HeadConfig POSE3D_IN_CH POSE3D_OUT_CH POSE3D_OUT_CH_PAD POSE3D_SHIFT.
Definition WORLD : head_config :=
  HeadConfig WORLD_IN_CH WORLD_OUT_CH WORLD_OUT_CH_PAD WORLD_SHIFT.
Definition FLAG : head_config :=
  HeadConfig FLAG_IN_CH FLAG_OUT_CH FLAG_OUT_CH_PAD FLAG_SHIFT.

(** The invariant the specification puts on a head configuration. *)
Definition wf_config (c : head_config) : Prop :=
  0 <= IN_CH c /\ 0 <= OUT_CH c <= OUT_CH_PAD c /\ 0 <= SHIFT c.

(** [sat_q15]: the two comparisons, then the narrowing conversion. *)
Definition sat_q15 (x : Z) : Z :=
  if 32767 <? x then 32767
  else if x <? -32768 then -32768
  else cast_int16 x.

(** ** Sequential programs over a state

    A kernel or a mover is a sequential program over the contents of its
    streams and buffers.  A run ends normally ([Done]), suspends on a read
    from an empty stream ([Blocked]), leaves the bounds of an array, which
    C++ leaves undefined ([Fault]), or throws a [std::runtime_error]
    ([Raised]).  The state reached is kept in every case. *)

Inductive outcome (A : Type) : Type :=
| Done (a : A)
| Blocked
| Fault
| Raised (msg : string).
Arguments Done {A} a.
Arguments Blocked {A}.
Arguments Fault {A}.
Arguments Raised {A} msg.

Definition prog (St A : Type) : Type := St -> St * outcome A.

Definition ret {St A : Type} (a : A) : prog St A := fun s => (s, Done a).

Definition bind {St A B : Type} (m : prog St A) (k : A -> prog St B) : prog St B :=
  fun s =>
    match m s with
    | (s', Done a) => k a s'
    | (s', Blocked) => (s', Blocked)
    | (s', Fault) => (s', Fault)
    | (s', Raised msg) => (s', Raised msg)
    end.

Notation "x <- m ;; k" := (bind m (fun x => k))
  (at level 100, m at next level, right associativity).
Notation "m ;;; k" := (bind m (fun _ => k))
  (at level 100, right associativity).

(** [for (i = lo; ...; ++i)] run for [n] iterations, threading the local
    variables [a] of the loop body. *)
Fixpoint for_fold {St A : Type} (n : nat) (i : Z)
    (body : Z -> A -> prog St A) (a : A) : prog St A :=
  match n with
  | O => ret a
  | S n' => a' <- body i a ;; for_fold n' (i + 1) body a'
  end.

(** [for (int i = lo; i < hi; ++i) body]. *)
Definition for_range {St : Type} (lo hi : Z) (body : Z -> prog St unit) : prog St unit :=
  for_fold (Z.to_nat (hi - lo)) lo (fun i _ => body i) tt.

(** ** The head kernels *)

(** What a kernel does to its ports, in the order it does it. *)
Inductive event : Type :=
| RdFeat (v : Z)
| RdWeight (v : Z)
| WrOut (v : Z).

(** The feature window, the weight stream (values still to be read), the
    output stream (values written so far), the static feature buffer of
    the kernel, and the port operations performed so far. *)
Record kstate := KState {
  feat_win : list Z;
  w_stream : list Z;
  out_stream : list Z;
  feat_buf : list Z;
  trace : list event
}.

(** [window_readincr(feat_win)].  The graph starts a kernel on a filled
    window ([graph.hpp] connects windows of [IN_CH] values); a read from an
    exhausted window or stream does not return. *)
Definition window_readincr : prog kstate Z := fun s =>
  match feat_win s with
  | [] => (s, Blocked)
  | v :: rest =>
      (KState rest (w_stream s) (out_stream s) (feat_buf s) (trace s ++ [RdFeat v]),
       Done v)
  end.

(** [readincr(w_stream)] *)
Definition readincr : prog kstate Z := fun s =>
  match w_stream s with
  | [] => (s, Blocked)
  | v :: rest =>
      (KState (feat_win s) rest (out_stream s) (feat_buf s) (trace s ++ [RdWeight v]),
       Done v)
  end.

(** [writeincr(out_stream, v)] *)
Definition writeincr (v : Z) : prog kstate unit := fun s =>
  (KState (feat_win s) (w_stream s) (out_stream s ++ [v]) (feat_buf s)
     (trace s ++ [WrOut v]),
   Done tt).

(** [feat_buf[i] = v] *)
Definition buf_store (i : Z) (v : Z) : prog kstate unit := fun s =>
  if decide (0 <= i < Z.of_nat (length (feat_buf s))) then
    (KState (feat_win s) (w_stream s) (out_stream s)
       (<[Z.to_nat i := v]> (feat_buf s)) (trace s),
     Done tt)
  else (s, Fault).

(** [feat_buf[i]] *)
Definition buf_load (i : Z) : prog kstate Z := fun s =>
  match feat_buf s !! Z.to_nat i with
  | Some v => if decide (0 <= i) then (s, Done v) else (s, Fault)
  | None => (s, Fault)
  end.

(** 1. Load feature vector from window. *)
Definition load_phase (c : head_config) : prog kstate unit :=
  for_range 0 (IN_CH c) (fun i =>
    v <- window_readincr ;;
    buf_store i v).

(** The MAC loop of one output channel, started from the bias [acc].
    The product of the two widened operands and the sum [acc += ...] are
    [int32_t] operations: their results are reduced to 32 bits, two's
    complement, as the target computes them (C++ leaves the overflow of a
    signed operation undefined). *)
Definition mac_loop (c : head_config) (acc : Z) : prog kstate Z :=
  for_fold (Z.to_nat (IN_CH c - 0)) 0 (fun ic acc =>
    f <- buf_load ic ;;
    w <- readincr ;;
    ret (cast_int32 (acc + cast_int32 (cast_int32 f * cast_int32 w)))) acc.

(** One iteration of the loop over the output channels.  [acc >>= SHIFT]
    on an [int32_t] is the arithmetic shift, [Z.shiftr], for a shift count
    from 0 to 31. *)
Definition output_channel (c : head_config) : prog kstate unit :=
  bias <- readincr ;;
  acc <- mac_loop c (cast_int32 bias) ;;
  writeincr (sat_q15 (Z.shiftr acc (SHIFT c))).

(** 2. Fully-connected layer. *)
Definition compute_phase (c : head_config) : prog kstate unit :=
  for_range 0 (OUT_CH c) (fun _ => output_channel c).

(** 3. Emit padded zeros up to [OUT_CH_PAD]. *)
Definition pad_phase (c : head_config) : prog kstate unit :=
  for_range (OUT_CH c) (OUT_CH_PAD c) (fun _ => writeincr 0).

(** The body shared by the three kernels, which differ in their constants
    only. *)
Definition head_kernel (c : head_config) : prog kstate unit :=
  load_phase c ;;; compute_phase c ;;; pad_phase c.

Definition pose3d_head_kernel : prog kstate unit := head_kernel POSE3D.
Definition world_head_kernel : prog kstate unit := head_kernel WORLD.
Definition flag_head_kernel : prog kstate unit := head_kernel FLAG.

(** A kernel invocation: the ports as the graph hands them over, the
    static buffer as the previous invocation left it. *)
Definition invoke (feat w scratch : list Z) : kstate :=
  KState feat w [] scratch [].

(** ** The movers (feat_mover.cpp, output_mover.cpp) *)

(** The buffer behind the [m_axi] port and the [hls::stream] (words still
    to be read, oldest first).  A word is an [ap_uint<128>]. *)
Record mstate := MState {
  mem : list Z;
  stream : list Z
}.

(** [mem[idx]] *)
Definition mem_read (idx : Z) : prog mstate Z := fun s =>
  match mem s !! Z.to_nat idx with
  | Some v => if decide (0 <= idx) then (s, Done v) else (s, Fault)
  | None => (s, Fault)
  end.

(** [mem[idx] = v] *)
Definition mem_write (idx : Z) (v : Z) : prog mstate unit := fun s =>
  if decide (0 <= idx < Z.of_nat (length (mem s))) then
    (MState (<[Z.to_nat idx := v]> (mem s)) (stream s), Done tt)
  else (s, Fault).

(** [outStream.write(v)] *)
Definition stream_write (v : Z) : prog mstate unit := fun s =>
  (MState (mem s) (stream s ++ [v]), Done tt).

(** [inStream.read()] *)
Definition stream_read : prog mstate Z := fun s =>
  match stream s with
  | [] => (s, Blocked)
  | v :: rest => (MState (mem s) rest, Done v)
  end.

(** [feat_mover]: the index [start_addr + i] is an [unsigned int]. *)
Definition feat_mover (num_words start_addr : Z) : prog mstate unit :=
  for_range 0 num_words (fun i =>
    v <- mem_read (cast_uint32 (start_addr + i)) ;;
    stream_write v).

(** [output_mover] *)
Definition output_mover (num_words start_addr : Z) : prog mstate unit :=
  for_range 0 num_words (fun i =>
    v <- stream_read ;;
    mem_write (cast_uint32 (start_addr + i)) v).

(** The slice [buffer[start .. start+count)]. *)
Definition slice (start count : Z) (buffer : list Z) : list Z :=
  take (Z.to_nat count) (drop (Z.to_nat start) buffer).

(** ** The host (host_overlay.cpp) *)

(** [std::to_string] of an integer, and the text [operator<<] writes for
    a [long]: its decimal digits, with a minus sign when negative. *)
Definition to_string (z : Z) : string := NilZero.string_of_int (Z.to_int z).

Definition newline : string := String (ascii_of_nat 10) EmptyString.

(** [load_bin<T>(path, buf, elems)] over a file system [fs] that gives the
    bytes of the files that can be opened.  The state is the memory behind
    [buf], as bytes; [fin.read] writes [needed] bytes there, which is
    undefined when the memory is shorter, and fails when the file gives
    fewer. *)
Definition load_bin (fs : string -> option (list Byte.byte)) (sizeof_T : Z)
    (path : string) (elems : Z) : prog (list Byte.byte) unit := fun buf =>
  match fs path with
  | None => (buf, Raised ("Failed to open binary file: " +:+ path))
  | Some content =>
      let fsize := Z.of_nat (length content) in
      let needed := cast_int64 (cast_uint64 (elems * sizeof_T)) in
      if fsize <? needed then
        (buf, Raised ("File too small: " +:+ path +:+ " (have " +:+ to_string fsize
                      +:+ " bytes, need " +:+ to_string needed +:+ ")"))
      else if Z.of_nat (length buf) <? needed then (buf, Fault)
      else
        let got := take (Z.to_nat needed) content in
        let buf' := got ++ drop (length got) buf in
        if Z.of_nat (length got) <? needed then
          (buf', Raised ("Failed to read all data from: " +:+ path))
        else (buf', Done tt)
  end.

(** [buf[i]] of a [const T *]. *)
Definition elem_at {St : Type} (buf : list Z) (i : Z) : prog St Z := fun s =>
  match buf !! Z.to_nat i with
  | Some v => if decide (0 <= i) then (s, Done v) else (s, Fault)
  | None => (s, Fault)
  end.

(** [fout << static_cast<long>(v) << "\n"]: the state is the text of the
    file. *)
Definition put_line (v : Z) : prog string unit := fun text =>
  (text +:+ to_string (cast_int64 v) +:+ newline, Done tt).

(** [save_txt<T>(path, buf, elems)]: opening the file empties it. *)
Definition save_txt (writable : string -> bool) (path : string)
    (buf : list Z) (elems : Z) : prog string unit := fun text =>
  if writable path then
    for_range 0 elems (fun i => v <- elem_at buf i ;; put_line v) EmptyString
  else (text, Raised ("Failed to open output file: " +:+ path)).

(** Sizes per head, as [main] computes them. *)
Definition pose3d_feat_elems : Z := cast_uint64 POSE3D_IN_CH.
Definition world_feat_elems : Z := cast_uint64 WORLD_IN_CH.
Definition flag_feat_elems : Z := cast_uint64 FLAG_IN_CH.

Definition pose3d_w_elems : Z :=
  cast_uint64 (cast_uint64 POSE3D_OUT_CH * cast_uint64 POSE3D_ROW_STRIDE).
Definition world_w_elems : Z :=
  cast_uint64 (cast_uint64 WORLD_OUT_CH * cast_uint64 WORLD_ROW_STRIDE).
Definition flag_w_elems : Z :=
  cast_uint64 (cast_uint64 FLAG_OUT_CH * cast_uint64 FLAG_ROW_STRIDE).

Definition pose3d_out_elems : Z := cast_uint64 POSE3D_OUT_CH.
Definition world_out_elems : Z := cast_uint64 WORLD_OUT_CH.
Definition flag_out_elems : Z := cast_uint64 FLAG_OUT_CH.

Definition sizeof_int16 : Z := 2.

(** The element counts [main] passes to [load_bin]. *)
Definition configured_elems : list Z :=
  [pose3d_feat_elems; world_feat_elems; flag_feat_elems;
   pose3d_w_elems; world_w_elems; flag_w_elems].

(** [out_bo.async(gmio, XCL_BO_SYNC_BO_AIE_TO_GMIO, elems * sizeof(int16_t), 0)]
    followed by [sync] and [map]: the host sees the first [elems] values
    the kernel wrote to its output stream. *)
Definition from_device (elems : Z) (out : list Z) : list Z :=
  take (Z.to_nat elems) out.

(** The three [save_txt] calls of [main] on the outputs of the kernels. *)
Definition save_pose3d (writable : string -> bool) (data_dir : string) (out : list Z)
  : prog string unit :=
  save_txt writable (data_dir +:+ "/pose3d_out_hw.txt")
    (from_device pose3d_out_elems out) pose3d_out_elems.
Definition save_world (writable : string -> bool) (data_dir : string) (out : list Z)
  : prog string unit :=
  save_txt writable (data_dir +:+ "/world_out_hw.txt")
    (from_device world_out_elems out) world_out_elems.
Definition save_flag (writable : string -> bool) (data_dir : string) (out : list Z)
  : prog string unit :=
  save_txt writable (data_dir +:+ "/flag_out_hw.txt")
    (from_device flag_out_elems out) flag_out_elems.

(** The number of lines of a text: its newline characters. *)
Fixpoint count_lines (text : string) : nat :=
  match text with
  | EmptyString => O
  | String a rest =>
      if Ascii.eqb a (ascii_of_nat 10) then S (count_lines rest) else count_lines rest
  end.

(** ** What the kernels compute, as functions of their inputs *)

(** The accumulator the MAC loop leaves, as a function of the bias, the
    buffered features and the weights of the row: every addition is the
    32-bit addition of the source. *)
Fixpoint mac_value (acc : Z) (fs ws : list Z) : Z :=
  match fs, ws with
  | f :: fs', w :: ws' =>
      mac_value (cast_int32 (acc + cast_int32 (cast_int32 f * cast_int32 w))) fs' ws'
  | _, _ => acc
  end.

(** The value written for a row [bias :: weights] of the weight stream. *)
Definition row_value (c : head_config) (fs row : list Z) : Z :=
  match row with
  | [] => 0
  | bias :: ws => sat_q15 (Z.shiftr (mac_value (cast_int32 bias) fs ws) (SHIFT c))
  end.

(** The number of stream values of one row: [1 + IN_CH]. *)
Definition stride (c : head_config) : nat := S (Z.to_nat (IN_CH c)).

(** The values written for the first [n] rows of the weight stream [w]. *)
Fixpoint kernel_outputs (c : head_config) (fs : list Z) (n : nat) (w : list Z) : list Z :=
  match n with
  | O => []
  | S n' =>
      row_value c fs (take (stride c) w) :: kernel_outputs c fs n' (drop (stride c) w)
  end.

(** The port operations of the first [n] rows. *)
Fixpoint compute_trace (c : head_config) (fs : list Z) (n : nat) (w : list Z) : list event :=
  match n with
  | O => []
  | S n' =>
      (map RdWeight (take (stride c) w) ++ [WrOut (row_value c fs (take (stride c) w))])
      ++ compute_trace c fs n' (drop (stride c) w)
  end.

(** The kernel up to the end of the MAC loop of the first output channel:
    the value returned is the accumulator [acc] before [acc >>= SHIFT]. *)
Definition first_accumulator (c : head_config) : prog kstate Z :=
  load_phase c ;;; (bias <- readincr ;; mac_loop c (cast_int32 bias)).

(** ** The specification's accumulator and output *)

(** The specification's accumulator: the integer [bias + sum of
    feature[ic] * w[ic]], with no bound on its size. *)
Definition spec_accumulator (bias : Z) (fs ws : list Z) : Z :=
  bias + foldr Z.add 0 (zip_with Z.mul fs ws).

(** The specification's output for a row [bias :: weights]: shift the
    exact accumulator, then saturate. *)
Definition spec_output (c : head_config) (fs row : list Z) : Z :=
  match row with
  | [] => 0
  | bias :: ws => sat_q15 (Z.shiftr (spec_accumulator bias fs ws) (SHIFT c))
  end.

(** Every running sum of the row fits a 32-bit signed integer. *)
Definition sums_fit_int32 (bias : Z) (fs ws : list Z) : Prop :=
  forall k : nat, is_int32 (spec_accumulator bias (take k fs) (take k ws)).

(** The specification's outputs for the first [n] rows of the weight
    stream [w], and the condition that the running sums of each of these
    rows fit 32 bits. *)
Fixpoint spec_outputs (c : head_config) (fs : list Z) (n : nat) (w : list Z) : list Z :=
  match n with
  | O => []
  | S n' =>
      spec_output c fs (take (stride c) w) :: spec_outputs c fs n' (drop (stride c) w)
  end.

Fixpoint rows_fit_int32 (c : head_config) (fs : list Z) (n : nat) (w : list Z) : Prop :=
  match n with
  | O => True
  | S n' =>
      match take (stride c) w with
      | [] => True
      | bias :: ws => sums_fit_int32 bias fs ws
      end
      /\ rows_fit_int32 c fs n' (drop (stride c) w)
  end.

(** ** Port operations *)

Definition is_feat_read (e : event) : Prop :=
  match e with RdFeat _ => True | _ => False end.

Definition is_weight_read (e : event) : Prop :=
  match e with RdWeight _ => True | _ => False end.

(** A program that only adds port operations satisfying [P] to the trace,
    however it ends. *)
Definition emits {A : Type} (P : event -> Prop) (m : prog kstate A) : Prop :=
  forall s, exists tr, trace (fst (m s)) = trace s ++ tr /\ Forall P tr.

(** ** Saved text *)

(** One line of text per value: its decimal digits and a newline. *)
Fixpoint lines_text (vs : list Z) : string :=
  match vs with
  | [] => EmptyString
  | v :: vs' => to_string v +:+ newline +:+ lines_text vs'
  end.

(** ** Inputs at the limits of the integer types *)

(** A feature window and a one-row weight stream for the flag head, all
    zero but for two entries of -32768 each: the two products are 2^30
    each, and their sum 2^31 is one more than the largest [int32_t]. *)
Definition overflow_feat : list Z := [-32768; -32768] ++ replicate 1150 0.
Definition overflow_w : list Z := 0 :: [-32768; -32768] ++ replicate 1150 0.

(** A buffer of 2^32 + 1 words: word 0 is 7, the last word is 5, the
    others are 0. *)
Definition long_buffer : list Z :=
  7 :: replicate (Z.to_nat 4294967294) 0 ++ [0; 5].

(** A destination of the same length, all zero. *)
Definition long_destination : list Z := replicate (Z.to_nat 4294967297) 0.

(** ** Rows of the weight stream *)

(** The first [n] rows of the weight stream [w], each of [1 + IN_CH]
    values: a bias, then the weights. *)
Fixpoint weight_rows (c : head_config) (n : nat) (w : list Z) : list (list Z) :=
  match n with
  | O => []
  | S n' => take (stride c) w :: weight_rows c n' (drop (stride c) w)
  end.

(** The exact sum of a row reduced to 32 bits, shifted and saturated. *)
Definition wrapped_output (c : head_config) (fs row : list Z) : Z :=
  match row with
  | [] => 0
  | bias :: ws =>
      sat_q15 (Z.shiftr (cast_int32 (spec_accumulator bias fs ws)) (SHIFT c))
  end.

(** Values of magnitude at most [b]. *)
Definition within (b : Z) (x : Z) : Prop := - b <= x <= b.

(** ** What an invocation may do to its ports *)

(** From [s] to [s']: 16-bit values were appended to the output stream,
    values were taken from the front of the weight stream and of the
    feature window, and the static buffer kept its size. *)
Definition port_discipline (s s' : kstate) : Prop :=
  (exists ys, out_stream s' = out_stream s ++ ys /\ Forall is_int16 ys)
  /\ (exists ws, w_stream s = ws ++ w_stream s')
  /\ (exists fs, feat_win s = fs ++ feat_win s')
  /\ length (feat_buf s') = length (feat_buf s).

(** A program whose every run, however it ends, relates the state it
    starts from to the state it reaches by [R]. *)
Definition keeps {A : Type} (R : kstate -> kstate -> Prop) (m : prog kstate A) : Prop :=
  forall s, R s (fst (m s)).

(** * Properties *)

(** Closed comparisons between integers are settled by evaluation. *)
Ltac by_computation := vm_compute; repeat split; discriminate.

(** ** Fixed-width integers *)

Lemma wrap_signed_small (w x : Z) :
  0 < w -> - 2 ^ (w - 1) <= x < 2 ^ (w - 1) -> wrap_signed w x = x.
Proof.
  intros Hw Hx. unfold wrap_signed.
  assert (Hp : 2 ^ w = 2 * 2 ^ (w - 1)).
  { replace w with (Z.succ (w - 1)) at 1 by lia. apply Z.pow_succ_r. lia. }
  rewrite Z.mod_small; lia.
Qed.

Lemma cast_int16_id (x : Z) : is_int16 x -> cast_int16 x = x.
Proof.
  unfold is_int16, cast_int16. intros H. apply wrap_signed_small; [lia|].
  change (2 ^ (16 - 1)) with 32768. lia.
Qed.

Lemma cast_int32_id (x : Z) : is_int32 x -> cast_int32 x = x.
Proof.
  unfold is_int32, cast_int32. intros H. apply wrap_signed_small; [lia|].
  change (2 ^ (32 - 1)) with 2147483648. lia.
Qed.

Lemma cast_int64_id (x : Z) :
  -9223372036854775808 <= x <= 9223372036854775807 -> cast_int64 x = x.
Proof.
  unfold cast_int64. intros H. apply wrap_signed_small; [lia|].
  change (2 ^ (64 - 1)) with 9223372036854775808. lia.
Qed.

Lemma cast_uint32_id (x : Z) : is_uint32 x -> cast_uint32 x = x.
Proof.
  unfold is_uint32, cast_uint32. intros H.
  change (2 ^ 32) with 4294967296. apply Z.mod_small. lia.
Qed.

Lemma cast_uint64_id (x : Z) : 0 <= x < 18446744073709551616 -> cast_uint64 x = x.
Proof.
  unfold cast_uint64. intros H.
  change (2 ^ 64) with 18446744073709551616. apply Z.mod_small. lia.
Qed.

Lemma is_int16_int32 (x : Z) : is_int16 x -> is_int32 x.
Proof. unfold is_int16, is_int32. lia. Qed.

Lemma int16_product_int32 (f w : Z) : is_int16 f -> is_int16 w -> is_int32 (f * w).
Proof. unfold is_int16, is_int32. intros Hf Hw. nia. Qed.

(** ** Saturation *)

Lemma sat_q15_clamp (x : Z) : sat_q15 x = Z.max (-32768) (Z.min 32767 x).
Proof.
  unfold sat_q15.
  destruct (Z.ltb_spec 32767 x); [lia|].
  destruct (Z.ltb_spec x (-32768)); [lia|].
  rewrite cast_int16_id by (unfold is_int16; lia). lia.
Qed.

(** C4. [sat_q15] clamps every integer to the range of a signed 16-bit
    value: above 32767 it returns 32767, below -32768 it returns -32768,
    and inside the range it returns its argument; the four boundary values
    32767, 32768, -32768 and -32769 go to 32767, 32767, -32768 and -32768. *)
Theorem sat_q15_clamps_to_int16 (x : Z) :
  sat_q15 x = Z.max (-32768) (Z.min 32767 x)
  /\ (32767 < x -> sat_q15 x = 32767)
  /\ (x < -32768 -> sat_q15 x = -32768)
  /\ (-32768 <= x <= 32767 -> sat_q15 x = x)
  /\ sat_q15 32767 = 32767
  /\ sat_q15 32768 = 32767
  /\ sat_q15 (-32768) = -32768
  /\ sat_q15 (-32769) = -32768.
Proof.
  rewrite sat_q15_clamp.
  repeat split; try reflexivity; lia.
Qed.

Lemma sat_q15_int16 (x : Z) : is_int16 (sat_q15 x).
Proof. rewrite sat_q15_clamp. unfold is_int16. lia. Qed.

(** ** Running programs *)

Lemma bind_done {St A B : Type} (m : prog St A) (k : A -> prog St B) s s' a :
  m s = (s', Done a) -> bind m k s = k a s'.
Proof. intros H. unfold bind. rewrite H. reflexivity. Qed.

Lemma bind_run {St A B : Type} (m : prog St A) (k : A -> prog St B) (s : St) :
  bind m k s
  = match m s with
    | (s', Done a) => k a s'
    | (s', Blocked) => (s', Blocked)
    | (s', Fault) => (s', Fault)
    | (s', Raised msg) => (s', Raised msg)
    end.
Proof. reflexivity. Qed.

Lemma for_fold_S {St A : Type} (n : nat) (i : Z) (body : Z -> A -> prog St A) (a : A) :
  for_fold (S n) i body a = bind (body i a) (fun a' => for_fold n (i + 1) body a').
Proof. reflexivity. Qed.

Lemma bind_assoc {St A B C : Type} (m : prog St A) (f : A -> prog St B)
    (g : B -> prog St C) (s : St) :
  bind (bind m f) g s = bind m (fun a => bind (f a) g) s.
Proof. unfold bind. destruct (m s) as [s' [a| | |msg]]; reflexivity. Qed.

Lemma bind_ext {St A B : Type} (m : prog St A) (f g : A -> prog St B) (s : St) :
  (forall a s', f a s' = g a s') -> bind m f s = bind m g s.
Proof.
  intros H. unfold bind. destruct (m s) as [s' [a| | |msg]]; try reflexivity.
  apply H.
Qed.

(** A loop is the sequence of its first [n] iterations and the rest. *)
Lemma for_fold_add {St A : Type} (n m : nat) (body : Z -> A -> prog St A) :
  forall (i : Z) (a : A) (s : St),
    for_fold (n + m) i body a s
    = bind (for_fold n i body a) (fun a' => for_fold m (i + Z.of_nat n) body a') s.
Proof.
  induction n as [|n IH]; intros i a s.
  - simpl. unfold bind, ret. rewrite Z.add_0_r. reflexivity.
  - change (S n + m)%nat with (S (n + m)). rewrite !for_fold_S.
    rewrite bind_assoc. apply bind_ext. intros a1 s1.
    rewrite IH. replace (i + 1 + Z.of_nat n) with (i + Z.of_nat (S n)) by lia.
    reflexivity.
Qed.

(** ** The head kernels: what one invocation computes *)

Example known_vector :
  out_stream (fst (head_kernel (HeadConfig 2 1 2 0)
                     (invoke [10; 20] [100; 2; 3] [0; 0]))) = [180; 0].
Proof. reflexivity. Qed.

Lemma length_kernel_outputs c fs n w : length (kernel_outputs c fs n w) = n.
Proof. revert w. induction n as [|n IH]; intros w; simpl; [reflexivity|]. by rewrite IH. Qed.

(** Every value a kernel computes for a row is a 16-bit value. *)
Lemma kernel_outputs_int16 c fs n w : Forall is_int16 (kernel_outputs c fs n w).
Proof.
  revert w. induction n as [|n IH]; intros w; cbn [kernel_outputs]; constructor.
  - unfold row_value. destruct (take (stride c) w).
    + unfold is_int16. lia.
    + apply sat_q15_int16.
  - apply IH.
Qed.

Lemma load_loop_run (fs : list Z) :
  forall (i : nat) (rest w out buf : list Z) (tr : list event),
    (i + length fs <= length buf)%nat ->
    for_fold (length fs) (Z.of_nat i)
      (fun i _ => v <- window_readincr ;; buf_store i v) tt
      (KState (fs ++ rest) w out buf tr)
    = (KState rest w out (take i buf ++ fs ++ drop (i + length fs) buf)
         (tr ++ map RdFeat fs), Done tt).
Proof.
  induction fs as [|f fs IH]; intros i rest w out buf tr Hlen.
  - simpl. rewrite Nat.add_0_r, take_drop, app_nil_r. reflexivity.
  - cbn [length] in *. rewrite for_fold_S.
    assert (Hi : (i < length buf)%nat) by lia.
    erewrite bind_done; cycle 1.
    { erewrite bind_done by reflexivity. unfold buf_store. cbn [feat_buf].
      rewrite decide_True by lia. reflexivity. }
    cbn [feat_win w_stream out_stream feat_buf trace].
    rewrite Nat2Z.id.
    replace (Z.of_nat i + 1) with (Z.of_nat (S i)) by lia.
    rewrite IH by (rewrite length_insert; lia).
    f_equal. f_equal.
    + rewrite (take_S_r _ _ f) by (apply list_lookup_insert_eq; lia).
      rewrite take_insert_ge by lia.
      rewrite drop_insert_lt by lia.
      replace (S i + length fs)%nat with (i + S (length fs))%nat by lia.
      rewrite <- !app_assoc. reflexivity.
    + rewrite <- app_assoc. reflexivity.
Qed.

Lemma mac_loop_run (ws : list Z) :
  forall (i : nat) (acc : Z) (fw rest out buf : list Z) (tr : list event),
    (i + length ws <= length buf)%nat ->
    for_fold (length ws) (Z.of_nat i)
      (fun ic acc =>
         f <- buf_load ic ;;
         w <- readincr ;;
         ret (cast_int32 (acc + cast_int32 (cast_int32 f * cast_int32 w)))) acc
      (KState fw (ws ++ rest) out buf tr)
    = (KState fw rest out buf (tr ++ map RdWeight ws),
       Done (mac_value acc (take (length ws) (drop i buf)) ws)).
Proof.
  induction ws as [|w ws IH]; intros i acc fw rest out buf tr Hlen.
  - simpl. rewrite app_nil_r. destruct (drop i buf); reflexivity.
  - cbn [length] in *. rewrite for_fold_S.
    destruct (lookup_lt_is_Some_2 buf i) as [f Hf]; [lia|].
    erewrite bind_done; cycle 1.
    { unfold bind, buf_load. cbn [feat_buf]. rewrite Nat2Z.id, Hf.
      rewrite decide_True by lia. reflexivity. }
    cbn [feat_win w_stream out_stream feat_buf trace].
    replace (Z.of_nat i + 1) with (Z.of_nat (S i)) by lia.
    rewrite IH by lia.
    rewrite (drop_S _ f i Hf). cbn [take mac_value].
    rewrite <- app_assoc. reflexivity.
Qed.

Lemma output_channel_run (c : head_config) (bias : Z) (ws fw rest out buf : list Z)
    (tr : list event) :
  length ws = Z.to_nat (IN_CH c) ->
  length buf = Z.to_nat (IN_CH c) ->
  output_channel c (KState fw (bias :: ws ++ rest) out buf tr)
  = (KState fw rest (out ++ [row_value c buf (bias :: ws)]) buf
       (tr ++ map RdWeight (bias :: ws) ++ [WrOut (row_value c buf (bias :: ws))]),
     Done tt).
Proof.
  intros Hws Hbuf. unfold output_channel.
  erewrite bind_done by reflexivity.
  cbn [feat_win w_stream out_stream feat_buf trace].
  erewrite bind_done; cycle 1.
  { unfold mac_loop. rewrite Z.sub_0_r, <- Hws.
    apply (mac_loop_run ws 0). lia. }
  unfold writeincr. cbn [feat_win w_stream out_stream feat_buf trace].
  rewrite drop_0, Hws, <- Hbuf, firstn_all.
  unfold row_value. rewrite <- !app_assoc. reflexivity.
Qed.

Lemma compute_loop_run (c : head_config) (n : nat) :
  forall (i : Z) (fw w out buf : list Z) (tr : list event),
    (n * stride c <= length w)%nat ->
    length buf = Z.to_nat (IN_CH c) ->
    for_fold n i (fun _ _ => output_channel c) tt (KState fw w out buf tr)
    = (KState fw (drop (n * stride c) w) (out ++ kernel_outputs c buf n w) buf
         (tr ++ compute_trace c buf n w), Done tt).
Proof.
  induction n as [|n IH]; intros i fw w out buf tr Hw Hbuf.
  - simpl. rewrite !app_nil_r. reflexivity.
  - rewrite for_fold_S.
    assert (Hrow : length (take (stride c) w) = stride c) by (rewrite length_take; lia).
    destruct (take (stride c) w) as [|bias ws] eqn:Erow; [discriminate|].
    erewrite bind_done; cycle 1.
    { rewrite <- (take_drop (stride c) w) at 1. rewrite Erow.
      apply output_channel_run; [|exact Hbuf].
      unfold stride in Hrow. simpl in Hrow. lia. }
    rewrite IH by (rewrite ?length_drop; lia || exact Hbuf).
    cbn [kernel_outputs compute_trace]. rewrite Erow, drop_drop.
    replace (stride c + n * stride c)%nat with (S n * stride c)%nat by lia.
    rewrite <- !app_assoc. reflexivity.
Qed.

Lemma pad_loop_run (n : nat) :
  forall (i : Z) (s : kstate),
    for_fold n i (fun _ _ => writeincr 0) tt s
    = (KState (feat_win s) (w_stream s) (out_stream s ++ replicate n 0) (feat_buf s)
         (trace s ++ replicate n (WrOut 0)), Done tt).
Proof.
  induction n as [|n IH]; intros i s.
  - simpl. rewrite !app_nil_r. destruct s; reflexivity.
  - rewrite for_fold_S. erewrite bind_done by reflexivity.
    rewrite IH. cbn [feat_win w_stream out_stream feat_buf trace replicate].
    rewrite <- !app_assoc. reflexivity.
Qed.

Lemma load_phase_run (c : head_config) (s : kstate) :
  length (feat_buf s) = Z.to_nat (IN_CH c) ->
  (Z.to_nat (IN_CH c) <= length (feat_win s))%nat ->
  load_phase c s
  = (KState (drop (Z.to_nat (IN_CH c)) (feat_win s)) (w_stream s) (out_stream s)
       (take (Z.to_nat (IN_CH c)) (feat_win s))
       (trace s ++ map RdFeat (take (Z.to_nat (IN_CH c)) (feat_win s))), Done tt).
Proof.
  intros Hbuf Hfeat. destruct s as [fw w out buf tr]. cbn [feat_win w_stream out_stream
    feat_buf trace] in *.
  unfold load_phase, for_range. rewrite Z.sub_0_r.
  set (n := Z.to_nat (IN_CH c)) in *.
  assert (Hn : length (take n fw) = n) by (rewrite length_take; lia).
  rewrite <- (take_drop n fw) at 1. rewrite <- Hn at 1.
  rewrite (load_loop_run (take n fw) 0) by (simpl; lia).
  rewrite Hn. simpl. rewrite (drop_ge buf n) by lia. rewrite app_nil_r. reflexivity.
Qed.

Lemma compute_phase_run (c : head_config) (s : kstate) :
  length (feat_buf s) = Z.to_nat (IN_CH c) ->
  (Z.to_nat (OUT_CH c) * stride c <= length (w_stream s))%nat ->
  compute_phase c s
  = (KState (feat_win s) (drop (Z.to_nat (OUT_CH c) * stride c) (w_stream s))
       (out_stream s ++ kernel_outputs c (feat_buf s) (Z.to_nat (OUT_CH c)) (w_stream s))
       (feat_buf s)
       (trace s ++ compute_trace c (feat_buf s) (Z.to_nat (OUT_CH c)) (w_stream s)),
     Done tt).
Proof.
  intros Hbuf Hw. destruct s as [fw w out buf tr].
  unfold compute_phase, for_range. rewrite Z.sub_0_r.
  apply compute_loop_run; assumption.
Qed.

Lemma pad_phase_run (c : head_config) (s : kstate) :
  pad_phase c s
  = (KState (feat_win s) (w_stream s)
       (out_stream s ++ replicate (Z.to_nat (OUT_CH_PAD c - OUT_CH c)) 0) (feat_buf s)
       (trace s ++ replicate (Z.to_nat (OUT_CH_PAD c - OUT_CH c)) (WrOut 0)), Done tt).
Proof. unfold pad_phase, for_range. apply pad_loop_run. Qed.

(** One invocation with enough input, in full. *)
Lemma head_kernel_run (c : head_config) (s : kstate) :
  length (feat_buf s) = Z.to_nat (IN_CH c) ->
  (Z.to_nat (IN_CH c) <= length (feat_win s))%nat ->
  (Z.to_nat (OUT_CH c) * stride c <= length (w_stream s))%nat ->
  let fs := take (Z.to_nat (IN_CH c)) (feat_win s) in
  head_kernel c s
  = (KState (drop (Z.to_nat (IN_CH c)) (feat_win s))
       (drop (Z.to_nat (OUT_CH c) * stride c) (w_stream s))
       ((out_stream s ++ kernel_outputs c fs (Z.to_nat (OUT_CH c)) (w_stream s))
        ++ replicate (Z.to_nat (OUT_CH_PAD c - OUT_CH c)) 0)
       fs
       (((trace s ++ map RdFeat fs)
         ++ compute_trace c fs (Z.to_nat (OUT_CH c)) (w_stream s))
        ++ replicate (Z.to_nat (OUT_CH_PAD c - OUT_CH c)) (WrOut 0)),
     Done tt).
Proof.
  intros Hbuf Hfeat Hw fs. unfold head_kernel.
  erewrite bind_done by (apply load_phase_run; assumption).
  erewrite bind_done; cycle 1.
  { apply compute_phase_run; cbn [feat_buf w_stream]; [|assumption].
    rewrite length_take. lia. }
  rewrite pad_phase_run. reflexivity.
Qed.

Lemma stride_Z (c : head_config) :
  0 <= IN_CH c -> 0 <= OUT_CH c ->
  (Z.to_nat (OUT_CH c) * stride c)%nat = Z.to_nat (OUT_CH c * (1 + IN_CH c)).
Proof. intros Hi Ho. unfold stride. nia. Qed.

(** C3. For every head configuration and every state whose feature window
    holds at least [IN_CH] values and whose weight stream holds at least
    [OUT_CH * (1 + IN_CH)] values, one invocation ends normally and appends
    exactly [OUT_CH_PAD] values to the output stream: [OUT_CH] values
    computed from the rows of the weight stream, then [OUT_CH_PAD - OUT_CH]
    zeros.  It takes exactly [OUT_CH * (1 + IN_CH)] values from the weight
    stream and [IN_CH] from the feature window, and the padding phase, run
    from any state, reads neither of them. *)
Theorem head_kernel_padding (c : head_config) (s : kstate) :
  wf_config c ->
  length (feat_buf s) = Z.to_nat (IN_CH c) ->
  IN_CH c <= Z.of_nat (length (feat_win s)) ->
  OUT_CH c * (1 + IN_CH c) <= Z.of_nat (length (w_stream s)) ->
  let s' := fst (head_kernel c s) in
  let computed :=
    kernel_outputs c (take (Z.to_nat (IN_CH c)) (feat_win s)) (Z.to_nat (OUT_CH c))
      (w_stream s) in
  snd (head_kernel c s) = Done tt
  /\ out_stream s'
     = out_stream s ++ computed ++ replicate (Z.to_nat (OUT_CH_PAD c - OUT_CH c)) 0
  /\ length computed = Z.to_nat (OUT_CH c)
  /\ Z.of_nat (length (out_stream s')) = Z.of_nat (length (out_stream s)) + OUT_CH_PAD c
  /\ w_stream s' = drop (Z.to_nat (OUT_CH c * (1 + IN_CH c))) (w_stream s)
  /\ Z.of_nat (length (w_stream s'))
     = Z.of_nat (length (w_stream s)) - OUT_CH c * (1 + IN_CH c)
  /\ feat_win s' = drop (Z.to_nat (IN_CH c)) (feat_win s)
  /\ (forall t : kstate,
        snd (pad_phase c t) = Done tt
        /\ w_stream (fst (pad_phase c t)) = w_stream t
        /\ feat_win (fst (pad_phase c t)) = feat_win t
        /\ out_stream (fst (pad_phase c t))
           = out_stream t ++ replicate (Z.to_nat (OUT_CH_PAD c - OUT_CH c)) 0).
Proof.
  intros (Hin & [Hout Hpad] & Hshift) Hbuf Hfeat Hw s' computed.
  assert (Hstride := stride_Z c Hin Hout).
  assert (Hrun := head_kernel_run c s Hbuf).
  subst s'. rewrite Hrun by lia. clear Hrun.
  cbn [fst snd feat_win w_stream out_stream].
  fold computed.
  assert (Hc : length computed = Z.to_nat (OUT_CH c)) by apply length_kernel_outputs.
  repeat split.
  - rewrite <- app_assoc. reflexivity.
  - exact Hc.
  - rewrite !length_app, length_replicate, Hc. lia.
  - rewrite Hstride. reflexivity.
  - rewrite length_drop. lia.
  - rewrite pad_phase_run. reflexivity.
  - rewrite pad_phase_run. reflexivity.
  - rewrite pad_phase_run. reflexivity.
  - rewrite pad_phase_run. reflexivity.
Qed.

(** The flag head on an all-zero feature window and weight stream. *)
Lemma head_kernel_padding_witness :
  let s := invoke (replicate 1152 0) (replicate 1153 0) (replicate 1152 7) in
  snd (head_kernel FLAG s) = Done tt
  /\ Z.of_nat (length (out_stream (fst (head_kernel FLAG s)))) = 0 + 8.
Proof.
  intros s.
  destruct (head_kernel_padding FLAG s) as (H1 & _ & _ & H4 & _).
  - by_computation.
  - reflexivity.
  - by_computation.
  - by_computation.
  - split; [exact H1 | exact H4].
Defined.

(** ** The accumulator against the exact sum *)

Lemma spec_accumulator_cons (bias f w : Z) (fs ws : list Z) :
  spec_accumulator bias (f :: fs) (w :: ws) = spec_accumulator (bias + f * w) fs ws.
Proof. unfold spec_accumulator. simpl. lia. Qed.

(** While the running sums fit 32 bits the kernel's accumulator is the
    exact sum. *)
Lemma mac_value_exact (fs ws : list Z) :
  forall bias : Z,
    Forall is_int16 fs -> Forall is_int16 ws ->
    sums_fit_int32 bias fs ws ->
    mac_value bias fs ws = spec_accumulator bias fs ws.
Proof.
  revert ws. induction fs as [|f fs IH]; intros ws bias Hfs Hws Hfit.
  - simpl. unfold spec_accumulator. simpl. lia.
  - destruct ws as [|w ws].
    + simpl. unfold spec_accumulator. simpl. lia.
    + inversion Hfs as [|? ? Hf Hfs']; subst. inversion Hws as [|? ? Hw Hws']; subst.
      cbn [mac_value]. rewrite spec_accumulator_cons.
      rewrite (cast_int32_id f) by (apply is_int16_int32; exact Hf).
      rewrite (cast_int32_id w) by (apply is_int16_int32; exact Hw).
      rewrite (cast_int32_id (f * w)) by (apply int16_product_int32; assumption).
      assert (H1 : is_int32 (bias + f * w)).
      { specialize (Hfit 1%nat). cbn [take] in Hfit. rewrite !take_0 in Hfit.
        unfold spec_accumulator in Hfit. simpl in Hfit.
        replace (bias + (f * w + 0)) with (bias + f * w) in Hfit by lia. exact Hfit. }
      rewrite (cast_int32_id _ H1).
      apply IH; [assumption|assumption|].
      intros k. specialize (Hfit (S k)). cbn [take] in Hfit.
      rewrite spec_accumulator_cons in Hfit. exact Hfit.
Qed.

(** While the running sums fit 32 bits the value written for a row is the
    specification's. *)
Lemma row_value_exact (c : head_config) (fs ws : list Z) (bias : Z) :
  is_int16 bias -> Forall is_int16 fs -> Forall is_int16 ws ->
  sums_fit_int32 bias fs ws ->
  row_value c fs (bias :: ws) = spec_output c fs (bias :: ws).
Proof.
  intros Hb Hfs Hws Hfit. unfold row_value, spec_output.
  rewrite (cast_int32_id bias) by (apply is_int16_int32; exact Hb).
  rewrite mac_value_exact by assumption. reflexivity.
Qed.

(** While the running sums of every row fit 32 bits the kernel writes the
    specification's outputs. *)
Lemma kernel_outputs_exact (c : head_config) (fs : list Z) (n : nat) :
  forall w : list Z,
    Forall is_int16 fs -> Forall is_int16 w ->
    rows_fit_int32 c fs n w ->
    kernel_outputs c fs n w = spec_outputs c fs n w.
Proof.
  induction n as [|n IH]; intros w Hfs Hw Hfit; [reflexivity|].
  cbn [kernel_outputs spec_outputs rows_fit_int32] in *.
  destruct Hfit as [Hrow Hrest].
  rewrite IH by (assumption || apply Forall_drop; assumption).
  f_equal.
  assert (Hrow16 : Forall is_int16 (take (stride c) w)) by (apply Forall_take; exact Hw).
  destruct (take (stride c) w) as [|bias ws]; [reflexivity|].
  inversion Hrow16; subst. apply row_value_exact; assumption.
Qed.

(** The known-vector and saturating scenarios of the specification. *)
Example known_vector_spec :
  spec_output (HeadConfig 2 1 2 0) [10; 20] [100; 2; 3] = 180
  /\ row_value (HeadConfig 2 1 2 0) [10; 20] [100; 2; 3] = 180.
Proof. split; reflexivity. Qed.

Example saturating_scenario :
  out_stream (fst (head_kernel (HeadConfig 2 1 2 0)
                     (invoke [2; 2] [0; 30000; 30000] [0; 0]))) = [32767; 0].
Proof. reflexivity. Qed.

(** C1. On [overflow_feat] and [overflow_w], which hold 1152 and 1153
    16-bit values, the flag head kernel writes -32768 followed by its seven
    padding zeros, whereas the value the claim gives for output 0,
    [saturate_q15 ((bias + sum) >> 15)], is 32767: the claimed equation
    fails on this input. *)
Theorem flag_head_output_on_overflow :
  Forall is_int16 overflow_feat /\ Forall is_int16 overflow_w
  /\ length overflow_feat = 1152%nat /\ length overflow_w = 1153%nat
  /\ snd (flag_head_kernel (invoke overflow_feat overflow_w (replicate 1152 0))) = Done tt
  /\ out_stream (fst (flag_head_kernel (invoke overflow_feat overflow_w (replicate 1152 0))))
     = [-32768; 0; 0; 0; 0; 0; 0; 0]
  /\ spec_output FLAG overflow_feat overflow_w = 32767.
Proof.
  split.
  { unfold overflow_feat. apply Forall_app. split.
    - repeat constructor; unfold is_int16; lia.
    - apply Forall_replicate. unfold is_int16. lia. }
  split.
  { unfold overflow_w. apply Forall_cons. split; [unfold is_int16; lia|].
    apply Forall_app. split.
    - repeat constructor; unfold is_int16; lia.
    - apply Forall_replicate. unfold is_int16. lia. }
  split; [reflexivity|]. split; [reflexivity|].
  split; [vm_compute; reflexivity|].
  split; vm_compute; reflexivity.
Qed.

(** C2. On the same input the accumulator the flag head kernel holds after
    the multiply-accumulate loop is -2147483648, while the exact integer
    [bias + sum of feature[ic] * w[ic]] is 2147483648: the 32-bit running
    sum wraps around before the shift-and-saturate step. *)
Theorem flag_head_accumulator_wraps :
  snd (first_accumulator FLAG (invoke overflow_feat overflow_w (replicate 1152 0)))
  = Done (-2147483648)
  /\ spec_accumulator 0 overflow_feat (tail overflow_w) = 2147483648
  /\ ~ is_int32 (spec_accumulator 0 overflow_feat (tail overflow_w)).
Proof.
  split; [vm_compute; reflexivity|].
  assert (H : spec_accumulator 0 overflow_feat (tail overflow_w) = 2147483648)
    by (vm_compute; reflexivity).
  split; [exact H|]. rewrite H. unfold is_int32. lia.
Qed.

(** ** The order of the port operations *)

Section Emits.
  Variable P : event -> Prop.

Lemma emits_ret {A : Type} (a : A) : emits P (ret a).
Proof. intros s. exists []. simpl. rewrite app_nil_r. auto. Qed.

Lemma emits_bind {A B : Type} (m : prog kstate A) (k : A -> prog kstate B) :
  emits P m -> (forall a, emits P (k a)) -> emits P (bind m k).
Proof.
  intros Hm Hk s. destruct (Hm s) as (tr1 & E1 & F1). unfold bind.
  destruct (m s) as [s1 [a| | |msg]]; simpl in E1.
  - destruct (Hk a s1) as (tr2 & E2 & F2). exists (tr1 ++ tr2).
    rewrite E2, E1, <- app_assoc. split; [reflexivity|]. apply Forall_app. auto.
  - exists tr1. auto.
  - exists tr1. auto.
  - exists tr1. auto.
Qed.

Lemma emits_for_fold {A : Type} (body : Z -> A -> prog kstate A) :
  (forall i a, emits P (body i a)) ->
  forall (n : nat) (i : Z) (a : A), emits P (for_fold n i body a).
Proof.
  intros Hbody. induction n as [|n IH]; intros i a.
  - apply emits_ret.
  - rewrite for_fold_S. apply emits_bind; [apply Hbody|]. intros a'. apply IH.
Qed.

Lemma emits_buf_load (i : Z) : emits P (buf_load i).
Proof.
  intros s. exists []. rewrite app_nil_r. split; [|constructor].
  unfold buf_load. destruct (feat_buf s !! Z.to_nat i); [|reflexivity].
  destruct (decide (0 <= i)); reflexivity.
Qed.

Lemma emits_buf_store (i v : Z) : emits P (buf_store i v).
Proof.
  intros s. exists []. rewrite app_nil_r. split; [|constructor].
  unfold buf_store. destruct (decide _); reflexivity.
Qed.

Lemma emits_readincr : (forall v, P (RdWeight v)) -> emits P readincr.
Proof.
  intros HP s. unfold readincr. destruct (w_stream s) as [|v rest].
  - exists []. simpl. rewrite app_nil_r. auto.
  - exists [RdWeight v]. simpl. auto.
Qed.

Lemma emits_writeincr (v : Z) : P (WrOut v) -> emits P (writeincr v).
Proof. intros HP s. exists [WrOut v]. simpl. auto. Qed.

End Emits.

(** The compute and padding phases perform no feature read. *)
Lemma compute_pad_emit_no_feat_read (c : head_config) :
  emits (fun e => ~ is_feat_read e) (compute_phase c ;;; pad_phase c).
Proof.
  apply emits_bind; [|intros _].
  - unfold compute_phase, for_range. apply emits_for_fold. intros _ _.
    unfold output_channel.
    apply emits_bind; [apply emits_readincr; simpl; tauto|intros bias].
    apply emits_bind; [|intros acc; apply emits_writeincr; simpl; tauto].
    unfold mac_loop. apply emits_for_fold. intros ic acc.
    apply emits_bind; [apply emits_buf_load|intros f].
    apply emits_bind; [apply emits_readincr; simpl; tauto|intros w].
    apply emits_ret.
  - unfold pad_phase, for_range. apply emits_for_fold. intros _ _.
    apply emits_writeincr. simpl. tauto.
Qed.

(** One iteration of the load loop. *)
Lemma load_body_run (i : Z) (s : kstate) :
  (v <- window_readincr ;; buf_store i v) s
  = match feat_win s with
    | [] => (s, Blocked)
    | v :: rest =>
        if decide (0 <= i < Z.of_nat (length (feat_buf s))) then
          (KState rest (w_stream s) (out_stream s) (<[Z.to_nat i := v]> (feat_buf s))
             (trace s ++ [RdFeat v]), Done tt)
        else
          (KState rest (w_stream s) (out_stream s) (feat_buf s) (trace s ++ [RdFeat v]),
           Fault)
    end.
Proof.
  unfold bind, window_readincr, buf_store.
  destruct (feat_win s) as [|v rest]; [reflexivity|].
  cbn [feat_win w_stream out_stream feat_buf trace].
  destruct (decide _); reflexivity.
Qed.

(** The load loop performs feature reads only, and when it ends normally
    it has read the first [n] values of the window. *)
Lemma load_loop_trace (n : nat) :
  forall (i : Z) (s : kstate),
    exists fs : list Z,
      trace (fst (for_fold n i (fun i _ => v <- window_readincr ;; buf_store i v) tt s))
      = trace s ++ map RdFeat fs
      /\ (snd (for_fold n i (fun i _ => v <- window_readincr ;; buf_store i v) tt s)
          = Done tt ->
          fs = take n (feat_win s) /\ length fs = n).
Proof.
  induction n as [|n IH]; intros i s.
  - exists []. simpl. rewrite app_nil_r, take_0. auto.
  - rewrite for_fold_S, bind_run, load_body_run.
    destruct (feat_win s) as [|v rest] eqn:Efw.
    + exists []. simpl. rewrite app_nil_r. split; [reflexivity|discriminate].
    + destruct (decide (0 <= i < Z.of_nat (length (feat_buf s)))).
      * match goal with
        | |- context [for_fold n (i + 1) _ tt ?s1] =>
            destruct (IH (i + 1) s1) as (fs & E & D)
        end.
        exists (v :: fs). rewrite E. cbn [trace map feat_win take] in *.
        rewrite <- app_assoc. split; [reflexivity|].
        intros Hd. destruct (D Hd) as [-> Hl]. simpl. rewrite Hl. auto.
      * exists [v]. simpl. split; [reflexivity|discriminate].
Qed.

(** C9. In every kernel invocation, however it ends, the port operations
    it performs are a run of feature reads followed by operations none of
    which is a feature read; and if a weight read is among them, the run of
    feature reads before it consists of exactly [IN_CH] reads, of the first
    [IN_CH] values of the feature window.  So no weight is read before the
    feature load is complete. *)
Theorem feature_load_precedes_weight_reads (c : head_config) (s : kstate) :
  exists (fs : list Z) (tr : list event),
    trace (fst (head_kernel c s)) = trace s ++ map RdFeat fs ++ tr
    /\ Forall (fun e => ~ is_feat_read e) tr
    /\ (Exists is_weight_read tr ->
        fs = take (Z.to_nat (IN_CH c)) (feat_win s)
        /\ length fs = Z.to_nat (IN_CH c)).
Proof.
  unfold head_kernel, load_phase, for_range. rewrite Z.sub_0_r.
  destruct (load_loop_trace (Z.to_nat (IN_CH c)) 0 s) as (fs & E & D).
  rewrite bind_run.
  destruct (for_fold _ _ _ _ s) as [s1 [[]| | |msg]]; cbn [fst snd] in *.
  - destruct (compute_pad_emit_no_feat_read c s1) as (tr & E2 & F2).
    exists fs, tr. rewrite E2, E, <- app_assoc. auto.
  - exists fs, []. rewrite app_nil_r. split; [exact E|]. split; [constructor|].
    intros H. inversion H.
  - exists fs, []. rewrite app_nil_r. split; [exact E|]. split; [constructor|].
    intros H. inversion H.
  - exists fs, []. rewrite app_nil_r. split; [exact E|]. split; [constructor|].
    intros H. inversion H.
Qed.

(** ** The static feature buffer across invocations *)

(** A window shorter than the loop bound: the load loop stores what there
    is and suspends on the next read. *)
Lemma load_loop_blocked (fs : list Z) (n : nat) :
  forall (i : nat) (w out buf : list Z) (tr : list event),
    (length fs < n)%nat ->
    (i + length fs <= length buf)%nat ->
    for_fold n (Z.of_nat i) (fun i _ => v <- window_readincr ;; buf_store i v) tt
      (KState fs w out buf tr)
    = (KState [] w out (take i buf ++ fs ++ drop (i + length fs) buf)
         (tr ++ map RdFeat fs), Blocked).
Proof.
  intros i w out buf tr Hn Hlen.
  replace n with (length fs + S (n - length fs - 1))%nat by lia.
  rewrite for_fold_add, bind_run.
  rewrite <- (app_nil_r fs) at 2.
  rewrite load_loop_run by exact Hlen.
  rewrite for_fold_S, bind_run, load_body_run. reflexivity.
Qed.

(** C10. Two invocations with the same configuration, the same feature
    window and the same weight stream, started from any two contents of the
    static feature buffer (an array of [IN_CH] entries), end the same way,
    perform the same port operations and write the same output stream: when
    the window holds [IN_CH] values the load phase leaves exactly these in
    the buffer, whatever it held before, so that the states after the load
    phase are equal. *)
Theorem scratch_buffer_not_observable (c : head_config) (feat w b1 b2 : list Z) :
  length b1 = Z.to_nat (IN_CH c) ->
  length b2 = Z.to_nat (IN_CH c) ->
  out_stream (fst (head_kernel c (invoke feat w b1)))
  = out_stream (fst (head_kernel c (invoke feat w b2)))
  /\ snd (head_kernel c (invoke feat w b1)) = snd (head_kernel c (invoke feat w b2))
  /\ trace (fst (head_kernel c (invoke feat w b1)))
     = trace (fst (head_kernel c (invoke feat w b2)))
  /\ (IN_CH c <= Z.of_nat (length feat) ->
      feat_buf (fst (load_phase c (invoke feat w b1))) = take (Z.to_nat (IN_CH c)) feat
      /\ load_phase c (invoke feat w b1) = load_phase c (invoke feat w b2)
      /\ head_kernel c (invoke feat w b1) = head_kernel c (invoke feat w b2)).
Proof.
  intros H1 H2.
  destruct (decide (Z.to_nat (IN_CH c) <= length feat)%nat) as [Hfeat|Hfeat].
  - assert (L1 := load_phase_run c (invoke feat w b1) H1 Hfeat).
    assert (L2 := load_phase_run c (invoke feat w b2) H2 Hfeat).
    cbn [invoke feat_win w_stream out_stream feat_buf trace] in L1, L2.
    assert (E : head_kernel c (invoke feat w b1) = head_kernel c (invoke feat w b2)).
    { unfold head_kernel. rewrite !bind_run, L1, L2. reflexivity. }
    rewrite E, L1, L2. repeat split; reflexivity.
  - assert (B : forall b, length b = Z.to_nat (IN_CH c) ->
                head_kernel c (invoke feat w b)
                = (KState [] w [] (take 0 b ++ feat ++ drop (0 + length feat) b)
                     ([] ++ map RdFeat feat), Blocked)).
    { intros b Hb. unfold head_kernel, load_phase, for_range, invoke.
      rewrite bind_run, Z.sub_0_r.
      rewrite (load_loop_blocked feat _ 0) by (simpl; lia). reflexivity. }
    rewrite (B b1 H1), (B b2 H2). cbn [fst snd out_stream trace].
    repeat split; lia.
Qed.

(** Two different contents of the feature buffer of the known-vector head. *)
Lemma scratch_buffer_not_observable_witness :
  out_stream (fst (head_kernel (HeadConfig 2 1 2 0) (invoke [10; 20] [100; 2; 3] [7; -7])))
  = out_stream (fst (head_kernel (HeadConfig 2 1 2 0) (invoke [10; 20] [100; 2; 3] [0; 0]))).
Proof.
  apply (scratch_buffer_not_observable (HeadConfig 2 1 2 0) [10; 20] [100; 2; 3]
           [7; -7] [0; 0]); reflexivity.
Defined.

(** ** The movers *)

(** [tb_feat_mover.cpp]: memory holding [0 .. 63], 16 words from 4. *)
Example tb_feat_mover :
  feat_mover 16 4 (MState (map Z.of_nat (seq 0 64)) [])
  = (MState (map Z.of_nat (seq 0 64)) (map Z.of_nat (seq 4 16)), Done tt).
Proof. reflexivity. Qed.

(** [tb_output_mover.cpp]: 16 words [2000 ..] written from address 8. *)
Example tb_output_mover :
  output_mover 16 8 (MState (replicate 64 0) (map Z.of_nat (seq 2000 16)))
  = (MState (replicate 8 0 ++ map Z.of_nat (seq 2000 16) ++ replicate 40 0) [],
     Done tt).
Proof. vm_compute. reflexivity. Qed.

Section Movers.
  Variable start_addr : Z.
  Hypothesis start_uint32 : is_uint32 start_addr.

(** The read loop from iteration [k] on, as long as [start_addr + i] stays
    below 2^32 and inside the buffer. *)
Lemma feat_mover_loop (buffer : list Z) (n : nat) :
  forall (k : nat) (st : list Z),
    start_addr + Z.of_nat k + Z.of_nat n <= 4294967296 ->
    (Z.to_nat start_addr + k + n <= length buffer)%nat ->
    for_fold n (Z.of_nat k)
      (fun i _ => v <- mem_read (cast_uint32 (start_addr + i)) ;; stream_write v) tt
      (MState buffer st)
    = (MState buffer (st ++ take n (drop (Z.to_nat start_addr + k) buffer)), Done tt).
Proof.
  unfold is_uint32 in start_uint32.
  induction n as [|n IH]; intros k st Hwrap Hlen.
  - simpl. rewrite app_nil_r. reflexivity.
  - rewrite for_fold_S.
    destruct (lookup_lt_is_Some_2 buffer (Z.to_nat start_addr + k)) as [v Hv]; [lia|].
    erewrite bind_done; cycle 1.
    { rewrite bind_run. unfold mem_read. cbn [mem].
      rewrite cast_uint32_id by (unfold is_uint32; lia).
      replace (Z.to_nat (start_addr + Z.of_nat k)) with (Z.to_nat start_addr + k)%nat by lia.
      rewrite Hv, decide_True by lia. reflexivity. }
    cbn [mem stream].
    replace (Z.of_nat k + 1) with (Z.of_nat (S k)) by lia.
    rewrite IH by lia.
    rewrite (drop_S _ v _ Hv). cbn [take].
    replace (Z.to_nat start_addr + S k)%nat with (S (Z.to_nat start_addr + k)) by lia.
    rewrite <- app_assoc. reflexivity.
Qed.

(** The write loop from iteration [k] on, under the same conditions. *)
Lemma output_mover_loop (ws : list Z) :
  forall (k : nat) (buffer rest : list Z),
    start_addr + Z.of_nat k + Z.of_nat (length ws) <= 4294967296 ->
    (Z.to_nat start_addr + k + length ws <= length buffer)%nat ->
    for_fold (length ws) (Z.of_nat k)
      (fun i _ => v <- stream_read ;; mem_write (cast_uint32 (start_addr + i)) v) tt
      (MState buffer (ws ++ rest))
    = (MState (take (Z.to_nat start_addr + k) buffer ++ ws
               ++ drop (Z.to_nat start_addr + k + length ws) buffer) rest, Done tt).
Proof.
  unfold is_uint32 in start_uint32.
  induction ws as [|v ws IH]; intros k buffer rest Hwrap Hlen.
  - simpl. rewrite Nat.add_0_r, take_drop. reflexivity.
  - cbn [length] in *. rewrite for_fold_S.
    erewrite bind_done; cycle 1.
    { rewrite bind_run. cbn [stream_read stream app]. unfold mem_write. cbn [mem stream].
      rewrite cast_uint32_id by (unfold is_uint32; lia).
      rewrite decide_True by lia. reflexivity. }
    replace (Z.to_nat (start_addr + Z.of_nat k)) with (Z.to_nat start_addr + k)%nat by lia.
    replace (Z.of_nat k + 1) with (Z.of_nat (S k)) by lia.
    rewrite IH by (rewrite ?length_insert; lia).
    f_equal. f_equal.
    replace (Z.to_nat start_addr + S k)%nat with (S (Z.to_nat start_addr + k)) by lia.
    rewrite (take_S_r _ _ v) by (apply list_lookup_insert_eq; lia).
    rewrite take_insert_ge by lia.
    rewrite drop_insert_lt by lia.
    replace (S (Z.to_nat start_addr + k) + length ws)%nat
      with (Z.to_nat start_addr + k + S (length ws))%nat by lia.
    rewrite <- !app_assoc. reflexivity.
Qed.

End Movers.

Lemma feat_mover_run (buffer st : list Z) (num_words start_addr : Z) :
  is_uint32 num_words -> is_uint32 start_addr ->
  start_addr + num_words <= 4294967296 ->
  start_addr + num_words <= Z.of_nat (length buffer) ->
  feat_mover num_words start_addr (MState buffer st)
  = (MState buffer (st ++ slice start_addr num_words buffer), Done tt).
Proof.
  unfold is_uint32. intros Hn Hs Hwrap Hlen.
  unfold feat_mover, for_range, slice. rewrite Z.sub_0_r.
  rewrite (feat_mover_loop start_addr Hs buffer (Z.to_nat num_words) 0) by lia.
  rewrite Nat.add_0_r. reflexivity.
Qed.

Lemma output_mover_run (buffer ws rest : list Z) (num_words start_addr : Z) :
  is_uint32 num_words -> is_uint32 start_addr ->
  Z.of_nat (length ws) = num_words ->
  start_addr + num_words <= 4294967296 ->
  start_addr + num_words <= Z.of_nat (length buffer) ->
  output_mover num_words start_addr (MState buffer (ws ++ rest))
  = (MState (take (Z.to_nat start_addr) buffer ++ ws
             ++ drop (Z.to_nat (start_addr + num_words)) buffer) rest, Done tt).
Proof.
  unfold is_uint32. intros Hn Hs Hws Hwrap Hlen.
  unfold output_mover, for_range. rewrite Z.sub_0_r.
  replace (Z.to_nat num_words) with (length ws) by lia.
  rewrite (output_mover_loop start_addr Hs ws 0) by lia.
  rewrite Nat.add_0_r.
  replace (Z.to_nat start_addr + length ws)%nat with (Z.to_nat (start_addr + num_words))
    by lia.
  reflexivity.
Qed.

Lemma length_slice (buffer : list Z) (start count : Z) :
  0 <= start -> 0 <= count -> start + count <= Z.of_nat (length buffer) ->
  Z.of_nat (length (slice start count buffer)) = count.
Proof. intros Hs Hc Hlen. unfold slice. rewrite length_take, length_drop. lia. Qed.

(** C6 (amended). For every buffer, start offset and count, as unsigned
    32-bit values, with [start_addr + num_words] within the buffer length
    and not above 2^32, [feat_mover] ends normally, appends to the stream
    exactly the words [buffer[start_addr]], ..., [buffer[start_addr +
    num_words - 1]] in that order, so that the stream grows by [num_words]
    entries, and leaves the buffer as it was. *)
Theorem feat_mover_appends_slice (buffer st : list Z) (num_words start_addr : Z) :
  is_uint32 num_words -> is_uint32 start_addr ->
  start_addr + num_words <= Z.of_nat (length buffer) ->
  start_addr + num_words <= 4294967296 ->
  let s' := fst (feat_mover num_words start_addr (MState buffer st)) in
  snd (feat_mover num_words start_addr (MState buffer st)) = Done tt
  /\ stream s' = st ++ slice start_addr num_words buffer
  /\ Z.of_nat (length (stream s')) = Z.of_nat (length st) + num_words
  /\ (forall i : nat, (i < Z.to_nat num_words)%nat ->
        slice start_addr num_words buffer !! i = buffer !! (Z.to_nat start_addr + i)%nat)
  /\ mem s' = buffer.
Proof.
  intros Hn Hs Hlen Hwrap s'. subst s'.
  rewrite feat_mover_run by assumption. cbn [fst snd mem stream].
  unfold is_uint32 in *.
  split; [reflexivity|]. split; [reflexivity|]. split; [|split; [|reflexivity]].
  - rewrite length_app, Nat2Z.inj_add, length_slice by lia. reflexivity.
  - intros i Hi. unfold slice. rewrite lookup_take_lt by exact Hi.
    apply lookup_drop.
Qed.

(** The testbench of [feat_mover]: 16 words from address 4 of a 64-word
    buffer. *)
Lemma feat_mover_appends_slice_witness :
  stream (fst (feat_mover 16 4 (MState (map Z.of_nat (seq 0 64)) [])))
  = [] ++ slice 4 16 (map Z.of_nat (seq 0 64)).
Proof.
  apply (feat_mover_appends_slice (map Z.of_nat (seq 0 64)) [] 16 4); by_computation.
Defined.

(** C5 (amended). For every buffer, every destination buffer at least as
    long as [start_addr + num_words], and every start offset and count, as
    unsigned 32-bit values, with [start_addr + num_words] within the buffer
    length and not above 2^32: running [feat_mover] into an empty stream
    and then [output_mover] from that stream into the destination, at the
    same offset and count, ends normally with the stream empty again and
    the slice of the destination equal to the slice of the buffer, element
    for element; the destination is unchanged outside the slice. *)
Theorem mover_round_trip (buffer dst : list Z) (num_words start_addr : Z) :
  is_uint32 num_words -> is_uint32 start_addr ->
  start_addr + num_words <= Z.of_nat (length buffer) ->
  start_addr + num_words <= Z.of_nat (length dst) ->
  start_addr + num_words <= 4294967296 ->
  let s1 := fst (feat_mover num_words start_addr (MState buffer [])) in
  let r2 := output_mover num_words start_addr (MState dst (stream s1)) in
  snd (feat_mover num_words start_addr (MState buffer [])) = Done tt
  /\ snd r2 = Done tt
  /\ slice start_addr num_words (mem (fst r2)) = slice start_addr num_words buffer
  /\ stream (fst r2) = []
  /\ mem (fst r2)
     = take (Z.to_nat start_addr) dst ++ slice start_addr num_words buffer
       ++ drop (Z.to_nat (start_addr + num_words)) dst.
Proof.
  intros Hn Hs Hlen Hdst Hwrap s1 r2. subst r2 s1.
  rewrite feat_mover_run by assumption. cbn [fst snd mem stream app].
  assert (Hsl := length_slice buffer start_addr num_words).
  unfold is_uint32 in Hn, Hs.
  assert (R : output_mover num_words start_addr
                (MState dst (slice start_addr num_words buffer))
              = (MState (take (Z.to_nat start_addr) dst ++ slice start_addr num_words buffer
                         ++ drop (Z.to_nat (start_addr + num_words)) dst) [], Done tt)).
  { rewrite <- (app_nil_r (slice start_addr num_words buffer)) at 1.
    apply output_mover_run; unfold is_uint32; lia. }
  rewrite R. cbn [fst snd mem stream].
  split; [reflexivity|]. split; [reflexivity|]. split; [|split; reflexivity].
  unfold slice at 1.
  rewrite drop_app_length' by (rewrite length_take; lia).
  rewrite take_app_length' by lia. reflexivity.
Qed.

(** The two testbenches combined: 16 words at address 4. *)
Lemma mover_round_trip_witness :
  slice 4 16
    (mem (fst (output_mover 16 4
                 (MState (replicate 64 0)
                    (stream (fst (feat_mover 16 4
                                    (MState (map Z.of_nat (seq 0 64)) []))))))))
  = slice 4 16 (map Z.of_nat (seq 0 64)).
Proof.
  apply (mover_round_trip (map Z.of_nat (seq 0 64)) (replicate 64 0) 16 4); by_computation.
Defined.

(** *** Beyond 2^32 words

    The index [start_addr + i] is computed in [unsigned int]: from
    [start_addr = 2^32 - 1] the second iteration addresses word 0. *)

Lemma feat_mover_index_wraps (buffer st : list Z) (a b : Z) :
  buffer !! Z.to_nat 4294967295 = Some a ->
  buffer !! 0%nat = Some b ->
  feat_mover 2 4294967295 (MState buffer st) = (MState buffer (st ++ [a; b]), Done tt).
Proof.
  intros Ha Hb. unfold feat_mover, for_range.
  change (Z.to_nat (2 - 0)) with 2%nat.
  rewrite for_fold_S, bind_run, bind_run. unfold mem_read at 1. cbn [mem].
  change (cast_uint32 (4294967295 + 0)) with 4294967295.
  rewrite Ha, decide_True by lia.
  unfold stream_write at 1. cbn [mem stream].
  rewrite for_fold_S, bind_run, bind_run. unfold mem_read at 1. cbn [mem].
  change (cast_uint32 (4294967295 + (0 + 1))) with 0.
  change (Z.to_nat 0) with 0%nat.
  rewrite Hb, decide_True by lia.
  unfold stream_write at 1. cbn [mem stream for_fold ret].
  rewrite <- app_assoc. reflexivity.
Qed.

Lemma output_mover_index_wraps (buffer rest : list Z) (a b : Z) :
  4294967295 < Z.of_nat (length buffer) ->
  output_mover 2 4294967295 (MState buffer (a :: b :: rest))
  = (MState (<[0%nat := b]> (<[Z.to_nat 4294967295 := a]> buffer)) rest, Done tt).
Proof.
  intros Hlen. unfold output_mover, for_range.
  change (Z.to_nat (2 - 0)) with 2%nat.
  rewrite for_fold_S, bind_run, bind_run. cbn [stream_read stream].
  unfold mem_write at 1. cbn [mem stream].
  change (cast_uint32 (4294967295 + 0)) with 4294967295.
  rewrite decide_True by lia.
  rewrite for_fold_S, bind_run, bind_run. cbn [stream_read stream].
  unfold mem_write at 1. cbn [mem stream].
  change (cast_uint32 (4294967295 + (0 + 1))) with 0.
  change (Z.to_nat 0) with 0%nat.
  rewrite decide_True by (rewrite length_insert; lia).
  reflexivity.
Qed.

Lemma length_long_buffer : Z.of_nat (length long_buffer) = 4294967297.
Proof.
  unfold long_buffer.
  rewrite length_cons, length_app, length_replicate.
  change (length [0; 5]) with 2%nat.
  lia.
Qed.

Lemma long_buffer_last_two :
  drop (Z.to_nat 4294967295) long_buffer = [0; 5].
Proof.
  unfold long_buffer.
  replace (Z.to_nat 4294967295) with (S (Z.to_nat 4294967294)) by lia.
  rewrite skipn_cons.
  apply drop_app_length'.
  rewrite length_replicate. reflexivity.
Qed.

Lemma long_buffer_slice : slice 4294967295 2 long_buffer = [0; 5].
Proof.
  unfold slice. rewrite long_buffer_last_two. reflexivity.
Qed.

Lemma long_buffer_lookup_last_but_one : long_buffer !! Z.to_nat 4294967295 = Some 0.
Proof.
  rewrite <- (Nat.add_0_r (Z.to_nat 4294967295)), <- lookup_drop, long_buffer_last_two.
  reflexivity.
Qed.

(** C6, as stated, fails on a buffer of more than 2^32 words: with
    [start_addr = 2^32 - 1] and [num_words = 2], both unsigned 32-bit
    values with [start_addr + num_words] within the buffer length,
    [feat_mover] appends [buffer[2^32 - 1]] and then [buffer[0]], which is
    7, where the claim has [buffer[2^32]], which is 5. *)
Lemma feat_mover_counterexample :
  is_uint32 2 /\ is_uint32 4294967295
  /\ 4294967295 + 2 <= Z.of_nat (length long_buffer)
  /\ stream (fst (feat_mover 2 4294967295 (MState long_buffer []))) = [0; 7]
  /\ slice 4294967295 2 long_buffer = [0; 5]
  /\ stream (fst (feat_mover 2 4294967295 (MState long_buffer [])))
     <> [] ++ slice 4294967295 2 long_buffer.
Proof.
  assert (R : feat_mover 2 4294967295 (MState long_buffer [])
              = (MState long_buffer ([] ++ [0; 7]), Done tt)).
  { apply feat_mover_index_wraps.
    - apply long_buffer_lookup_last_but_one.
    - reflexivity. }
  rewrite R, long_buffer_slice, length_long_buffer. cbn [fst stream app].
  unfold is_uint32. repeat split; try lia; discriminate.
Qed.

Lemma length_long_destination : length long_destination = length long_buffer.
Proof.
  apply Nat2Z.inj. rewrite length_long_buffer. unfold long_destination.
  rewrite length_replicate. lia.
Qed.

Lemma long_destination_after_wrap :
  slice 4294967295 2 (<[0%nat := 7]> (<[Z.to_nat 4294967295 := 0]> long_destination))
  = [0; 0].
Proof.
  unfold slice, long_destination.
  rewrite insert_replicate.
  rewrite drop_insert_lt by lia.
  rewrite drop_replicate.
  replace (Z.to_nat 4294967297 - Z.to_nat 4294967295)%nat with 2%nat by lia.
  reflexivity.
Qed.

(** C5, as stated, fails on buffers of more than 2^32 words: with
    [start_addr = 2^32 - 1] and [num_words = 2], within the length of
    [long_buffer] and of the all-zero destination of the same length, the
    two movers end normally, but the second word moved is [buffer[0]] and
    it is written to word 0 of the destination: the slice of the
    destination is [0; 0] and not the slice [0; 5] of the buffer. *)
Lemma mover_round_trip_counterexample :
  let s1 := fst (feat_mover 2 4294967295 (MState long_buffer [])) in
  let r2 := output_mover 2 4294967295 (MState long_destination (stream s1)) in
  is_uint32 2 /\ is_uint32 4294967295
  /\ 4294967295 + 2 <= Z.of_nat (length long_buffer)
  /\ length long_destination = length long_buffer
  /\ snd r2 = Done tt
  /\ slice 4294967295 2 (mem (fst r2)) = [0; 0]
  /\ slice 4294967295 2 long_buffer = [0; 5]
  /\ slice 4294967295 2 (mem (fst r2)) <> slice 4294967295 2 long_buffer.
Proof.
  cbv zeta.
  assert (R : feat_mover 2 4294967295 (MState long_buffer [])
              = (MState long_buffer ([] ++ [0; 7]), Done tt)).
  { apply feat_mover_index_wraps.
    - apply long_buffer_lookup_last_but_one.
    - reflexivity. }
  rewrite R. cbn [fst stream app].
  rewrite output_mover_index_wraps
    by (rewrite length_long_destination, length_long_buffer; lia).
  cbn [fst snd mem].
  rewrite long_destination_after_wrap, long_buffer_slice, length_long_buffer.
  unfold is_uint32.
  split; [lia|]. split; [lia|]. split; [lia|].
  split; [apply length_long_destination|].
  split; [reflexivity|]. split; [reflexivity|]. split; [reflexivity|]. discriminate.
Qed.

(** ** The host: [save_txt] *)

Example save_txt_three :
  save_txt (fun _ => true) "out.txt" [180; 0; -32768] 3 "stale"
  = ("180" +:+ newline +:+ "0" +:+ newline +:+ "-32768" +:+ newline, Done tt).
Proof. reflexivity. Qed.

Lemma append_assoc (s1 s2 s3 : string) : (s1 +:+ s2) +:+ s3 = s1 +:+ (s2 +:+ s3).
Proof.
  induction s1 as [|a s1 IH]; [reflexivity|].
  change (String a ((s1 +:+ s2) +:+ s3) = String a (s1 +:+ (s2 +:+ s3))).
  rewrite IH. reflexivity.
Qed.

Lemma append_empty_r (s : string) : s +:+ EmptyString = s.
Proof.
  induction s as [|a s IH]; [reflexivity|].
  change (String a (s +:+ EmptyString) = String a s).
  rewrite IH. reflexivity.
Qed.

Lemma count_lines_append (s1 s2 : string) :
  count_lines (s1 +:+ s2) = (count_lines s1 + count_lines s2)%nat.
Proof.
  induction s1 as [|a s1 IH]; [reflexivity|].
  change (String a s1 +:+ s2) with (String a (s1 +:+ s2)).
  cbn [count_lines]. rewrite IH.
  destruct (Ascii.eqb a _); reflexivity.
Qed.

(** The decimal digits of an integer hold no newline. *)
Lemma count_lines_uint (d : Decimal.uint) : count_lines (NilEmpty.string_of_uint d) = O.
Proof. induction d; simpl; assumption || reflexivity. Qed.

Lemma count_lines_to_string (z : Z) : count_lines (to_string z) = O.
Proof.
  unfold to_string, NilZero.string_of_int, NilZero.string_of_uint.
  destruct (Z.to_int z) as [d|d]; destruct d;
    try reflexivity; cbn [count_lines Ascii.eqb]; apply count_lines_uint.
Qed.

Lemma count_lines_lines_text (vs : list Z) : count_lines (lines_text vs) = length vs.
Proof.
  induction vs as [|v vs IH]; [reflexivity|].
  cbn [lines_text length].
  rewrite !count_lines_append, count_lines_to_string, IH. reflexivity.
Qed.

Lemma save_txt_loop (buf : list Z) (n : nat) :
  forall (k : nat) (text : string),
    (k + n <= length buf)%nat ->
    Forall is_int16 buf ->
    for_fold n (Z.of_nat k) (fun i _ => v <- elem_at buf i ;; put_line v) tt text
    = (text +:+ lines_text (take n (drop k buf)), Done tt).
Proof.
  induction n as [|n IH]; intros k text Hlen Hbuf.
  - simpl. rewrite append_empty_r. reflexivity.
  - rewrite for_fold_S.
    destruct (lookup_lt_is_Some_2 buf k) as [v Hv]; [lia|].
    assert (Hv16 : is_int16 v).
    { rewrite Forall_forall in Hbuf. apply Hbuf. eapply list_elem_of_lookup_2, Hv. }
    erewrite bind_done; cycle 1.
    { rewrite bind_run. unfold elem_at. rewrite Nat2Z.id, Hv, decide_True by lia.
      unfold put_line. rewrite cast_int64_id by (unfold is_int16 in Hv16; lia).
      reflexivity. }
    replace (Z.of_nat k + 1) with (Z.of_nat (S k)) by lia.
    rewrite IH by (assumption || lia).
    rewrite (drop_S _ v k Hv). cbn [take lines_text].
    rewrite !append_assoc. reflexivity.
Qed.

Lemma save_txt_run (writable : string -> bool) (path : string) (buf : list Z)
    (elems : Z) (text : string) :
  writable path = true ->
  0 <= elems <= Z.of_nat (length buf) ->
  Forall is_int16 buf ->
  save_txt writable path buf elems text
  = (lines_text (take (Z.to_nat elems) buf), Done tt).
Proof.
  intros Hw Hlen Hbuf. unfold save_txt, for_range. rewrite Hw, Z.sub_0_r.
  rewrite (save_txt_loop buf (Z.to_nat elems) 0) by (assumption || lia).
  rewrite drop_0. reflexivity.
Qed.

(** What [main] writes for a head whose output buffer has [elems]
    elements, from the stream [out] of its kernel. *)
Lemma save_head_run (writable : string -> bool) (path : string) (out : list Z)
    (elems : Z) (text : string) :
  writable path = true ->
  0 <= elems <= Z.of_nat (length out) ->
  Forall is_int16 out ->
  save_txt writable path (from_device elems out) elems text
  = (lines_text (take (Z.to_nat elems) out), Done tt)
  /\ count_lines (lines_text (take (Z.to_nat elems) out)) = Z.to_nat elems.
Proof.
  intros Hw Hlen Hout. unfold from_device. split.
  - rewrite save_txt_run.
    + rewrite take_take, Nat.min_id. reflexivity.
    + exact Hw.
    + rewrite length_take. lia.
    + apply Forall_take. exact Hout.
  - rewrite count_lines_lines_text, length_take. lia.
Qed.

(** C7 (amended). For every head, the text [main] saves holds the first
    [OUT_CH] values of the kernel's output, the computed entries, written
    as one decimal integer per line in index order: 195 lines for the pose
    head, 117 for the world head, 1 for the flag head.  The zero padding
    entries are not among them. *)
Theorem saved_outputs_hold_out_ch_lines (writable : string -> bool) (data_dir : string)
    (pose3d_out world_out flag_out : list Z) (text : string) :
  (forall path, writable path = true) ->
  Forall is_int16 pose3d_out -> Forall is_int16 world_out -> Forall is_int16 flag_out ->
  OUT_CH POSE3D <= Z.of_nat (length pose3d_out) ->
  OUT_CH WORLD <= Z.of_nat (length world_out) ->
  OUT_CH FLAG <= Z.of_nat (length flag_out) ->
  (save_pose3d writable data_dir pose3d_out text
   = (lines_text (take (Z.to_nat (OUT_CH POSE3D)) pose3d_out), Done tt)
   /\ count_lines (fst (save_pose3d writable data_dir pose3d_out text)) = 195%nat)
  /\ (save_world writable data_dir world_out text
      = (lines_text (take (Z.to_nat (OUT_CH WORLD)) world_out), Done tt)
      /\ count_lines (fst (save_world writable data_dir world_out text)) = 117%nat)
  /\ (save_flag writable data_dir flag_out text
      = (lines_text (take (Z.to_nat (OUT_CH FLAG)) flag_out), Done tt)
      /\ count_lines (fst (save_flag writable data_dir flag_out text)) = 1%nat).
Proof.
  intros Hw Hp Hwo Hf Lp Lw Lf.
  unfold save_pose3d, save_world, save_flag.
  split; [|split].
  - destruct (save_head_run writable (data_dir +:+ "/pose3d_out_hw.txt") pose3d_out
                pose3d_out_elems text (Hw _)) as [E C]; [split; [by_computation|exact Lp]|exact Hp|].
    rewrite E. split; [reflexivity|exact C].
  - destruct (save_head_run writable (data_dir +:+ "/world_out_hw.txt") world_out
                world_out_elems text (Hw _)) as [E C]; [split; [by_computation|exact Lw]|exact Hwo|].
    rewrite E. split; [reflexivity|exact C].
  - destruct (save_head_run writable (data_dir +:+ "/flag_out_hw.txt") flag_out
                flag_out_elems text (Hw _)) as [E C]; [split; [by_computation|exact Lf]|exact Hf|].
    rewrite E. split; [reflexivity|exact C].
Qed.

(** Outputs as the kernels leave them: [OUT_CH_PAD] values each. *)
Lemma saved_outputs_hold_out_ch_lines_witness :
  count_lines (fst (save_pose3d (fun _ => true) "data" (replicate 200 0) "stale")) = 195%nat
  /\ count_lines (fst (save_world (fun _ => true) "data" (replicate 120 0) "stale")) = 117%nat
  /\ save_flag (fun _ => true) "data" [-32768; 0; 0; 0; 0; 0; 0; 0] "stale"
     = ("-32768" +:+ newline, Done tt).
Proof.
  destruct (saved_outputs_hold_out_ch_lines (fun _ => true) "data"
              (replicate 200 0) (replicate 120 0) [-32768; 0; 0; 0; 0; 0; 0; 0] "stale")
    as ((_ & P) & (_ & W) & (F & _)).
  - reflexivity.
  - apply Forall_replicate. by_computation.
  - apply Forall_replicate. by_computation.
  - repeat constructor; by_computation.
  - by_computation.
  - by_computation.
  - by_computation.
  - split; [exact P|]. split; [exact W|exact F].
Defined.

(** C7, as stated, fails for each head: from kernel outputs of
    [OUT_CH_PAD] values (200, 120 and 8), the saved texts have 195, 117 and
    1 lines, not 200, 120 and 8. *)
Lemma saved_outputs_counterexample :
  (length (replicate 200 0) = Z.to_nat (OUT_CH_PAD POSE3D)
   /\ snd (save_pose3d (fun _ => true) "data" (replicate 200 0) EmptyString) = Done tt
   /\ count_lines (fst (save_pose3d (fun _ => true) "data" (replicate 200 0) EmptyString))
      = 195%nat
   /\ 195%nat <> Z.to_nat (OUT_CH_PAD POSE3D))
  /\ (length (replicate 120 0) = Z.to_nat (OUT_CH_PAD WORLD)
      /\ snd (save_world (fun _ => true) "data" (replicate 120 0) EmptyString) = Done tt
      /\ count_lines (fst (save_world (fun _ => true) "data" (replicate 120 0) EmptyString))
         = 117%nat
      /\ 117%nat <> Z.to_nat (OUT_CH_PAD WORLD))
  /\ (length (replicate 8 0) = Z.to_nat (OUT_CH_PAD FLAG)
      /\ snd (save_flag (fun _ => true) "data" (replicate 8 0) EmptyString) = Done tt
      /\ count_lines (fst (save_flag (fun _ => true) "data" (replicate 8 0) EmptyString))
         = 1%nat
      /\ 1%nat <> Z.to_nat (OUT_CH_PAD FLAG)).
Proof.
  repeat split; try (vm_compute; reflexivity); vm_compute; discriminate.
Qed.

(** ** The host: [load_bin] *)

(** [load_bin] on a file that can be opened, for an element count whose
    size in bytes fits a [std::streamsize]. *)
Lemma load_bin_run (fs : string -> option (list Byte.byte)) (sizeof_T : Z)
    (path : string) (elems : Z) (content buf : list Byte.byte) :
  fs path = Some content ->
  0 <= elems * sizeof_T <= 9223372036854775807 ->
  (Z.of_nat (length content) < elems * sizeof_T ->
   load_bin fs sizeof_T path elems buf
   = (buf, Raised ("File too small: " +:+ path +:+ " (have "
                   +:+ to_string (Z.of_nat (length content))
                   +:+ " bytes, need " +:+ to_string (elems * sizeof_T) +:+ ")")))
  /\ (elems * sizeof_T <= Z.of_nat (length content) ->
      elems * sizeof_T <= Z.of_nat (length buf) ->
      load_bin fs sizeof_T path elems buf
      = (take (Z.to_nat (elems * sizeof_T)) content
         ++ drop (Z.to_nat (elems * sizeof_T)) buf, Done tt)).
Proof.
  intros Hfs Hfit. unfold load_bin. rewrite Hfs.
  rewrite cast_uint64_id by lia. rewrite cast_int64_id by lia.
  cbv zeta. split.
  - intros Hsmall.
    destruct (Z.ltb_spec (Z.of_nat (length content)) (elems * sizeof_T)); [reflexivity|lia].
  - intros Hlarge Hbuf.
    destruct (Z.ltb_spec (Z.of_nat (length content)) (elems * sizeof_T)); [lia|].
    destruct (Z.ltb_spec (Z.of_nat (length buf)) (elems * sizeof_T)); [lia|].
    rewrite length_take.
    replace (Z.to_nat (elems * sizeof_T) `min` length content)%nat
      with (Z.to_nat (elems * sizeof_T)) by lia.
    destruct (Z.ltb_spec (Z.of_nat (Z.to_nat (elems * sizeof_T))) (elems * sizeof_T));
      [lia|reflexivity].
Qed.

Lemma configured_elems_fit (elems : Z) :
  In elems configured_elems -> 0 <= elems * sizeof_int16 <= 9223372036854775807.
Proof.
  unfold configured_elems. simpl.
  intros [<-|[<-|[<-|[<-|[<-|[<-|[]]]]]]]; by_computation.
Qed.

(** C8. For each element count [main] configures and every input file
    that can be opened: when the file has fewer bytes than the element
    count times the size of an [int16_t], [load_bin] throws the error that
    says the file is too small, with the two sizes, and the destination
    buffer is as it was; when the file has at least that many bytes,
    [load_bin] ends normally and has copied exactly that many bytes, the
    first of the file, to the start of the buffer. *)
Theorem load_bin_checks_size (fs : string -> option (list Byte.byte))
    (path : string) (elems : Z) (content buf : list Byte.byte) :
  In elems configured_elems ->
  fs path = Some content ->
  (Z.of_nat (length content) < elems * sizeof_int16 ->
   load_bin fs sizeof_int16 path elems buf
   = (buf, Raised ("File too small: " +:+ path +:+ " (have "
                   +:+ to_string (Z.of_nat (length content))
                   +:+ " bytes, need " +:+ to_string (elems * sizeof_int16) +:+ ")")))
  /\ (elems * sizeof_int16 <= Z.of_nat (length content) ->
      elems * sizeof_int16 <= Z.of_nat (length buf) ->
      load_bin fs sizeof_int16 path elems buf
      = (take (Z.to_nat (elems * sizeof_int16)) content
         ++ drop (Z.to_nat (elems * sizeof_int16)) buf, Done tt)).
Proof.
  intros Hin Hfs. apply load_bin_run; [exact Hfs|].
  apply configured_elems_fit. exact Hin.
Qed.

(** A feature file of three bytes, for the 1152 features of the flag head. *)
Lemma load_bin_checks_size_witness :
  load_bin (fun _ => Some [Byte.x01; Byte.x02; Byte.x03]) sizeof_int16
    "posehead_input_q15.bin" flag_feat_elems [Byte.xff; Byte.xff]
  = ([Byte.xff; Byte.xff],
     Raised "File too small: posehead_input_q15.bin (have 3 bytes, need 2304)").
Proof.
  apply (load_bin_checks_size (fun _ => Some [Byte.x01; Byte.x02; Byte.x03])
           "posehead_input_q15.bin" flag_feat_elems [Byte.x01; Byte.x02; Byte.x03]
           [Byte.xff; Byte.xff]).
  - right. right. left. reflexivity.
  - reflexivity.
  - by_computation.
Defined.

Example load_bin_enough :
  load_bin (fun _ => Some [Byte.x01; Byte.x02; Byte.x03; Byte.x04; Byte.x05]) sizeof_int16
    "f.bin" 2 [Byte.xff; Byte.xff; Byte.xff; Byte.xff; Byte.xee]
  = ([Byte.x01; Byte.x02; Byte.x03; Byte.x04; Byte.xee], Done tt).
Proof. reflexivity. Qed.

Example load_bin_missing :
  load_bin (fun _ => None) sizeof_int16 "f.bin" 2 [Byte.xff]
  = ([Byte.xff], Raised "Failed to open binary file: f.bin").
Proof. reflexivity. Qed.

(** * Further properties *)

(** ** The accumulator modulo 2^32 *)

Lemma cast_int32_mod (x : Z) : cast_int32 x mod 2 ^ 32 = x mod 2 ^ 32.
Proof.
  unfold cast_int32, wrap_signed. change (2 ^ (32 - 1)) with 2147483648.
  rewrite Zminus_mod_idemp_l. f_equal. lia.
Qed.

Lemma cast_int32_eq (x y : Z) : x mod 2 ^ 32 = y mod 2 ^ 32 -> cast_int32 x = cast_int32 y.
Proof.
  intros H. unfold cast_int32, wrap_signed. f_equal.
  rewrite <- (Zplus_mod_idemp_l x), H, Zplus_mod_idemp_l. reflexivity.
Qed.

Lemma cast_int32_range (x : Z) : is_int32 (cast_int32 x).
Proof.
  unfold is_int32, cast_int32, wrap_signed.
  change (2 ^ (32 - 1)) with 2147483648. change (2 ^ 32) with 4294967296.
  pose proof (Z.mod_pos_bound (x + 2147483648) 4294967296). lia.
Qed.

Lemma cast_int32_step (acc f w : Z) :
  cast_int32 (acc + cast_int32 (cast_int32 f * cast_int32 w)) = cast_int32 (acc + f * w).
Proof.
  apply cast_int32_eq.
  rewrite <- Zplus_mod_idemp_r, cast_int32_mod.
  rewrite <- Zmult_mod_idemp_l, <- Zmult_mod_idemp_r, !cast_int32_mod.
  rewrite Zmult_mod_idemp_l, Zmult_mod_idemp_r, Zplus_mod_idemp_r. reflexivity.
Qed.

Lemma spec_accumulator_shift (acc d : Z) (fs ws : list Z) :
  spec_accumulator (acc + d) fs ws = spec_accumulator acc fs ws + d.
Proof. unfold spec_accumulator. lia. Qed.

(** The accumulator of the MAC loop is congruent to the exact sum. *)
Lemma mac_value_mod (fs : list Z) :
  forall (ws : list Z) (acc : Z),
    cast_int32 (mac_value acc fs ws) = cast_int32 (spec_accumulator acc fs ws).
Proof.
  induction fs as [|f fs IH]; intros ws acc.
  - simpl. unfold spec_accumulator. simpl. f_equal. lia.
  - destruct ws as [|w ws].
    + simpl. unfold spec_accumulator. simpl. f_equal. lia.
    + cbn [mac_value]. rewrite IH, spec_accumulator_cons, cast_int32_step.
      apply cast_int32_eq.
      replace (acc + f * w) with (0 + (acc + f * w)) at 2 by lia.
      replace (cast_int32 (acc + f * w)) with (0 + cast_int32 (acc + f * w)) by lia.
      rewrite !spec_accumulator_shift.
      rewrite <- Zplus_mod_idemp_r, cast_int32_mod, Zplus_mod_idemp_r. reflexivity.
Qed.

Lemma mac_value_range (fs : list Z) :
  forall (ws : list Z) (acc : Z), is_int32 acc -> is_int32 (mac_value acc fs ws).
Proof.
  induction fs as [|f fs IH]; intros ws acc Hacc; [exact Hacc|].
  destruct ws as [|w ws]; [exact Hacc|].
  cbn [mac_value]. apply IH, cast_int32_range.
Qed.

Lemma row_value_wrapped (c : head_config) (fs row : list Z) :
  row_value c fs row = wrapped_output c fs row.
Proof.
  destruct row as [|bias ws]; [reflexivity|].
  unfold row_value, wrapped_output. do 2 f_equal.
  rewrite <- (cast_int32_id (mac_value _ _ _)) by apply mac_value_range, cast_int32_range.
  rewrite mac_value_mod. apply cast_int32_eq.
  replace (cast_int32 bias) with (0 + cast_int32 bias) by lia.
  replace bias with (0 + bias) at 2 by lia.
  rewrite !spec_accumulator_shift.
  rewrite <- Zplus_mod_idemp_r, cast_int32_mod, Zplus_mod_idemp_r. reflexivity.
Qed.

Lemma kernel_outputs_rows (c : head_config) (fs : list Z) (n : nat) :
  forall w : list Z,
    kernel_outputs c fs n w = map (wrapped_output c fs) (weight_rows c n w).
Proof.
  induction n as [|n IH]; intros w; [reflexivity|].
  cbn [kernel_outputs weight_rows map]. rewrite IH, row_value_wrapped. reflexivity.
Qed.

Lemma spec_outputs_rows (c : head_config) (fs : list Z) (n : nat) :
  forall w : list Z, spec_outputs c fs n w = map (spec_output c fs) (weight_rows c n w).
Proof.
  induction n as [|n IH]; intros w; [reflexivity|].
  cbn [spec_outputs weight_rows map]. rewrite IH. reflexivity.
Qed.

Lemma length_weight_rows (c : head_config) (n : nat) (w : list Z) :
  length (weight_rows c n w) = n.
Proof. revert w. induction n as [|n IH]; intros w; simpl; [reflexivity|]. by rewrite IH. Qed.

(** X1. For every head configuration and every state with [IN_CH] values
    in the feature window and [OUT_CH] rows in the weight stream, whatever
    16-bit or other values they hold, the invocation ends normally and
    appends, for each row in order, the exact [bias + sum feature * w]
    reduced to 32 bits (two's complement), shifted right by [SHIFT] and
    saturated, followed by the padding zeros. *)
Theorem head_kernel_outputs_modulo (c : head_config) (s : kstate) :
  0 <= IN_CH c -> 0 <= OUT_CH c ->
  length (feat_buf s) = Z.to_nat (IN_CH c) ->
  IN_CH c <= Z.of_nat (length (feat_win s)) ->
  OUT_CH c * (1 + IN_CH c) <= Z.of_nat (length (w_stream s)) ->
  snd (head_kernel c s) = Done tt
  /\ out_stream (fst (head_kernel c s))
     = out_stream s
       ++ map (wrapped_output c (take (Z.to_nat (IN_CH c)) (feat_win s)))
            (weight_rows c (Z.to_nat (OUT_CH c)) (w_stream s))
       ++ replicate (Z.to_nat (OUT_CH_PAD c - OUT_CH c)) 0.
Proof.
  intros Hin Hout Hbuf Hfeat Hw.
  assert (Hstride := stride_Z c Hin Hout).
  rewrite head_kernel_run by (assumption || lia).
  cbn [fst snd out_stream]. split; [reflexivity|].
  rewrite kernel_outputs_rows, <- app_assoc. reflexivity.
Qed.

(** The overflowing row of the flag head: the exact sum 2^31 is reduced to
    -2^31. *)
Lemma head_kernel_outputs_modulo_witness :
  out_stream (fst (head_kernel FLAG (invoke overflow_feat overflow_w (replicate 1152 0))))
  = [] ++ map (wrapped_output FLAG (take (Z.to_nat (IN_CH FLAG)) overflow_feat))
            (weight_rows FLAG (Z.to_nat (OUT_CH FLAG)) overflow_w)
       ++ replicate (Z.to_nat (OUT_CH_PAD FLAG - OUT_CH FLAG)) 0.
Proof.
  apply (head_kernel_outputs_modulo FLAG
           (invoke overflow_feat overflow_w (replicate 1152 0))); by_computation.
Defined.

(** ** When the accumulator is exact *)

(** X2. For every head configuration and every state with [IN_CH] values
    in the feature window and [OUT_CH] rows in the weight stream, all of
    them 16-bit values: if every running sum of every row fits a signed
    32-bit integer, the invocation appends, for each row in order, the
    specification's output [saturate_q15 ((bias + sum feature * w) >>
    SHIFT)], followed by the padding zeros. *)
Theorem head_kernel_outputs_exact (c : head_config) (s : kstate) :
  0 <= IN_CH c -> 0 <= OUT_CH c ->
  length (feat_buf s) = Z.to_nat (IN_CH c) ->
  IN_CH c <= Z.of_nat (length (feat_win s)) ->
  OUT_CH c * (1 + IN_CH c) <= Z.of_nat (length (w_stream s)) ->
  Forall is_int16 (feat_win s) ->
  Forall is_int16 (w_stream s) ->
  rows_fit_int32 c (take (Z.to_nat (IN_CH c)) (feat_win s)) (Z.to_nat (OUT_CH c))
    (w_stream s) ->
  snd (head_kernel c s) = Done tt
  /\ out_stream (fst (head_kernel c s))
     = out_stream s
       ++ map (spec_output c (take (Z.to_nat (IN_CH c)) (feat_win s)))
            (weight_rows c (Z.to_nat (OUT_CH c)) (w_stream s))
       ++ replicate (Z.to_nat (OUT_CH_PAD c - OUT_CH c)) 0.
Proof.
  intros Hin Hout Hbuf Hfeat Hw Hf16 Hw16 Hfit.
  assert (Hstride := stride_Z c Hin Hout).
  rewrite head_kernel_run by (assumption || lia).
  cbn [fst snd out_stream]. split; [reflexivity|].
  rewrite kernel_outputs_exact by (assumption || apply Forall_take; assumption).
  rewrite spec_outputs_rows, <- app_assoc. reflexivity.
Qed.

(** The known-vector scenario of the specification. *)
Lemma head_kernel_outputs_exact_witness :
  out_stream (fst (head_kernel (HeadConfig 2 1 2 0) (invoke [10; 20] [100; 2; 3] [0; 0])))
  = [] ++ map (spec_output (HeadConfig 2 1 2 0) (take (Z.to_nat 2) [10; 20]))
            (weight_rows (HeadConfig 2 1 2 0) (Z.to_nat 1) [100; 2; 3])
       ++ replicate (Z.to_nat (2 - 1)) 0.
Proof.
  apply (head_kernel_outputs_exact (HeadConfig 2 1 2 0) (invoke [10; 20] [100; 2; 3] [0; 0])).
  - by_computation.
  - by_computation.
  - reflexivity.
  - by_computation.
  - by_computation.
  - repeat constructor; by_computation.
  - repeat constructor; by_computation.
  - split; [|exact I]. intros k.
    destruct k as [|[|[|k]]]; by_computation.
Defined.

Lemma spec_accumulator_within (F W : Z) (fs : list Z) :
  0 <= F -> 0 <= W ->
  forall (ws : list Z) (acc B : Z),
    within B acc -> Forall (within F) fs -> Forall (within W) ws ->
    within (B + Z.of_nat (length fs) * (F * W)) (spec_accumulator acc fs ws).
Proof.
  intros HF HW. unfold within.
  induction fs as [|f fs IH]; intros ws acc B Hacc Hfs Hws.
  - unfold spec_accumulator. simpl. lia.
  - destruct ws as [|w ws].
    + unfold spec_accumulator. simpl length. rewrite zip_with_nil_r. simpl. nia.
    + inversion Hfs as [|? ? Hf Hfs']; subst. inversion Hws as [|? ? Hw Hws']; subst.
      rewrite spec_accumulator_cons.
      specialize (IH ws (acc + f * w) (B + F * W)).
      assert (Hp : - (F * W) <= f * w <= F * W) by nia.
      cbn [length]. rewrite Nat2Z.inj_succ.
      replace (B + Z.succ (Z.of_nat (length fs)) * (F * W))
        with (B + F * W + Z.of_nat (length fs) * (F * W)) by lia.
      apply IH; [lia|assumption|assumption].
Qed.

Lemma sums_fit_int32_within (F W B : Z) (fs ws : list Z) (bias : Z) :
  0 <= F -> 0 <= W ->
  within B bias -> Forall (within F) fs -> Forall (within W) ws ->
  B + Z.of_nat (length fs) * (F * W) <= 2147483647 ->
  sums_fit_int32 bias fs ws.
Proof.
  intros HF HW Hb Hfs Hws Hbound k.
  pose proof (spec_accumulator_within F W (take k fs) HF HW (take k ws) bias B Hb
                (Forall_take _ _ _ Hfs) (Forall_take _ _ _ Hws)) as H.
  unfold within in H. unfold is_int32.
  assert (Hk : Z.of_nat (length (take k fs)) <= Z.of_nat (length fs))
    by (rewrite length_take; lia).
  assert (HFW : 0 <= F * W) by nia.
  assert (Hm : Z.of_nat (length (take k fs)) * (F * W) <= Z.of_nat (length fs) * (F * W))
    by (apply Z.mul_le_mono_nonneg_r; assumption).
  lia.
Qed.

(** X3. A range in which the 32-bit accumulator cannot overflow: for a
    16-bit bias, features of magnitude at most [F] and weights of magnitude
    at most [W], both at most 32767, with [32768 + n * F * W <= 2^31 - 1]
    for the [n] buffered features, the value the kernel writes for the row
    is the specification's output.  For the 1152 features of the three
    heads this holds for full-range features and weights up to 56. *)
Theorem row_value_exact_within (c : head_config) (F W bias : Z) (fs ws : list Z) :
  0 <= F <= 32767 -> 0 <= W <= 32767 ->
  is_int16 bias -> Forall (within F) fs -> Forall (within W) ws ->
  32768 + Z.of_nat (length fs) * (F * W) <= 2147483647 ->
  row_value c fs (bias :: ws) = spec_output c fs (bias :: ws)
  /\ sums_fit_int32 bias fs ws.
Proof.
  intros HF HW Hb Hfs Hws Hbound.
  assert (Hfit : sums_fit_int32 bias fs ws).
  { apply (sums_fit_int32_within F W 32768); try assumption; try lia.
    unfold within, is_int16 in *. lia. }
  split; [|exact Hfit].
  apply row_value_exact; try assumption.
  - eapply Forall_impl; [exact Hfs|]. unfold within, is_int16. intros; lia.
  - eapply Forall_impl; [exact Hws|]. unfold within, is_int16. intros; lia.
Qed.

(** 1152 features of 32767 against 1152 weights of -56. *)
Lemma row_value_exact_within_witness :
  row_value FLAG (replicate 1152 32767) (100 :: replicate 1152 (-56))
  = spec_output FLAG (replicate 1152 32767) (100 :: replicate 1152 (-56)).
Proof.
  apply (row_value_exact_within FLAG 32767 56 100 (replicate 1152 32767)
           (replicate 1152 (-56))).
  - by_computation.
  - by_computation.
  - by_computation.
  - apply Forall_replicate. by_computation.
  - apply Forall_replicate. by_computation.
  - by_computation.
Defined.

(** ** Starved invocations *)



(** One iteration of the MAC loop on an empty weight stream. *)
Lemma mac_body_blocked (ic acc : Z) (fw out buf : list Z) (tr : list event) :
  0 <= ic < Z.of_nat (length buf) ->
  (f <- buf_load ic ;; w <- readincr ;;
   ret (cast_int32 (acc + cast_int32 (cast_int32 f * cast_int32 w))))
    (KState fw [] out buf tr)
  = (KState fw [] out buf tr, Blocked).
Proof.
  intros Hic. rewrite bind_run. unfold buf_load. cbn [feat_buf].
  destruct (lookup_lt_is_Some_2 buf (Z.to_nat ic)) as [f Hf]; [lia|].
  rewrite Hf, decide_True by lia. reflexivity.
Qed.

Lemma mac_loop_blocked (ws : list Z) (n : nat) :
  forall (i : nat) (acc : Z) (fw out buf : list Z) (tr : list event),
    (length ws < n)%nat ->
    (i + n <= length buf)%nat ->
    for_fold n (Z.of_nat i)
      (fun ic acc =>
         f <- buf_load ic ;;
         w <- readincr ;;
         ret (cast_int32 (acc + cast_int32 (cast_int32 f * cast_int32 w)))) acc
      (KState fw ws out buf tr)
    = (KState fw [] out buf (tr ++ map RdWeight ws), Blocked).
Proof.
  intros i acc fw out buf tr Hn Hlen.
  replace n with (length ws + S (n - length ws - 1))%nat by lia.
  rewrite for_fold_add, bind_run.
  rewrite <- (app_nil_r ws) at 2.
  rewrite mac_loop_run by lia.
  rewrite for_fold_S, bind_run, mac_body_blocked by lia. reflexivity.
Qed.

(** An output channel whose row is cut short. *)
Lemma output_channel_blocked (c : head_config) (w fw out buf : list Z) (tr : list event) :
  (length w < stride c)%nat ->
  length buf = Z.to_nat (IN_CH c) ->
  output_channel c (KState fw w out buf tr)
  = (KState fw [] out buf (tr ++ map RdWeight w), Blocked).
Proof.
  intros Hw Hbuf. unfold output_channel, stride in *. rewrite bind_run.
  destruct w as [|bias ws].
  - simpl. rewrite app_nil_r. reflexivity.
  - cbn [readincr w_stream feat_win out_stream feat_buf trace length] in *.
    rewrite bind_run. unfold mac_loop. rewrite Z.sub_0_r.
    rewrite (mac_loop_blocked ws _ 0) by lia.
    cbn [map]. rewrite <- app_assoc. reflexivity.
Qed.

Lemma compute_loop_blocked (c : head_config) (n : nat) :
  forall (i : Z) (fw w out buf : list Z) (tr : list event),
    (length w < n * stride c)%nat ->
    length buf = Z.to_nat (IN_CH c) ->
    for_fold n i (fun _ _ => output_channel c) tt (KState fw w out buf tr)
    = (KState fw [] (out ++ kernel_outputs c buf (length w / stride c) w) buf
         (tr ++ compute_trace c buf (length w / stride c) w
             ++ map RdWeight (drop (length w / stride c * stride c) w)), Blocked).
Proof.
  intros i fw w out buf tr Hw Hbuf.
  assert (Hs : stride c <> 0%nat) by (unfold stride; lia).
  set (k := (length w / stride c)%nat).
  assert (Hk : (k * stride c <= length w)%nat)
    by (rewrite Nat.mul_comm; apply Nat.Div0.mul_div_le).
  assert (Hkn : (k < n)%nat)
    by (apply Nat.Div0.div_lt_upper_bound; lia).
  assert (Hr : (length w - k * stride c < stride c)%nat).
  { pose proof (Nat.div_mod_eq (length w) (stride c)) as E.
    pose proof (Nat.mod_upper_bound (length w) (stride c) Hs). fold k in E. lia. }
  replace n with (k + S (n - k - 1))%nat by lia.
  rewrite for_fold_add, bind_run.
  rewrite compute_loop_run by assumption.
  rewrite for_fold_S, bind_run.
  rewrite output_channel_blocked by (rewrite ?length_drop; assumption).
  rewrite <- app_assoc. reflexivity.
Qed.

(** X5. With [IN_CH] values in the feature window but fewer than [OUT_CH]
    full rows in the weight stream, the invocation suspends in the compute
    phase: it has written the outputs of the full rows there are, in order,
    has taken what there is of the next row, and has written no padding. *)
Theorem head_kernel_starved_of_weights (c : head_config) (s : kstate) :
  0 <= IN_CH c ->
  length (feat_buf s) = Z.to_nat (IN_CH c) ->
  IN_CH c <= Z.of_nat (length (feat_win s)) ->
  Z.of_nat (length (w_stream s)) < OUT_CH c * (1 + IN_CH c) ->
  let full_rows := (length (w_stream s) / stride c)%nat in
  snd (head_kernel c s) = Blocked
  /\ out_stream (fst (head_kernel c s))
     = out_stream s
       ++ kernel_outputs c (take (Z.to_nat (IN_CH c)) (feat_win s)) full_rows (w_stream s)
  /\ length (out_stream (fst (head_kernel c s)))
     = (length (out_stream s) + full_rows)%nat
  /\ Z.of_nat full_rows < OUT_CH c
  /\ w_stream (fst (head_kernel c s)) = []
  /\ feat_win (fst (head_kernel c s)) = drop (Z.to_nat (IN_CH c)) (feat_win s).
Proof.
  intros Hin Hbuf Hfeat Hw full_rows.
  assert (Hout : 0 <= OUT_CH c) by nia.
  assert (Hstride := stride_Z c Hin Hout).
  assert (Hs : stride c <> 0%nat) by (unfold stride; lia).
  assert (Hlt : (length (w_stream s) < Z.to_nat (OUT_CH c) * stride c)%nat) by lia.
  assert (Hrows : Z.of_nat full_rows < OUT_CH c).
  { assert (full_rows < Z.to_nat (OUT_CH c))%nat
      by (apply Nat.Div0.div_lt_upper_bound; lia). lia. }
  unfold head_kernel. rewrite bind_run.
  rewrite load_phase_run by (assumption || lia).
  rewrite bind_run. unfold compute_phase, for_range. rewrite Z.sub_0_r.
  rewrite compute_loop_blocked by (rewrite ?length_take; lia).
  cbn [fst snd out_stream w_stream feat_win]. fold full_rows.
  split; [reflexivity|]. split; [reflexivity|].
  split; [rewrite length_app, length_kernel_outputs; reflexivity|].
  split; [exact Hrows|]. split; reflexivity.
Qed.

(** The known-vector head with one full row and one weight of a second
    row, where two rows are expected. *)
Lemma head_kernel_starved_of_weights_witness :
  snd (head_kernel (HeadConfig 2 2 2 0) (invoke [10; 20] [100; 2; 3; 5] [0; 0])) = Blocked
  /\ out_stream (fst (head_kernel (HeadConfig 2 2 2 0)
                        (invoke [10; 20] [100; 2; 3; 5] [0; 0]))) = [180].
Proof.
  destruct (head_kernel_starved_of_weights (HeadConfig 2 2 2 0)
              (invoke [10; 20] [100; 2; 3; 5] [0; 0])) as (B & O & _).
  - by_computation.
  - reflexivity.
  - by_computation.
  - by_computation.
  - split; [exact B|exact O].
Defined.

(** ** What no invocation does *)

Section Keeps.
  Variable R : kstate -> kstate -> Prop.
  Hypothesis R_refl : forall s, R s s.
  Hypothesis R_trans : forall s1 s2 s3, R s1 s2 -> R s2 s3 -> R s1 s3.

Lemma keeps_ret {A : Type} (a : A) : keeps R (ret a).
Proof. intros s. apply R_refl. Qed.

Lemma keeps_bind {A B : Type} (m : prog kstate A) (k : A -> prog kstate B) :
  keeps R m -> (forall a, keeps R (k a)) -> keeps R (bind m k).
Proof.
  intros Hm Hk s. specialize (Hm s). rewrite bind_run.
  destruct (m s) as [s1 [a| | |msg]]; cbn [fst] in *; try exact Hm.
  eapply R_trans; [exact Hm|apply Hk].
Qed.

Lemma keeps_for_fold {A : Type} (body : Z -> A -> prog kstate A) :
  (forall i a, keeps R (body i a)) ->
  forall (n : nat) (i : Z) (a : A), keeps R (for_fold n i body a).
Proof.
  intros Hbody. induction n as [|n IH]; intros i a.
  - apply keeps_ret.
  - rewrite for_fold_S. apply keeps_bind; [apply Hbody|]. intros a'. apply IH.
Qed.

End Keeps.

Lemma port_discipline_refl (s : kstate) : port_discipline s s.
Proof.
  unfold port_discipline. split; [exists []; rewrite app_nil_r; auto|].
  split; [exists []; reflexivity|]. split; [exists []; reflexivity|reflexivity].
Qed.

Lemma port_discipline_trans (s1 s2 s3 : kstate) :
  port_discipline s1 s2 -> port_discipline s2 s3 -> port_discipline s1 s3.
Proof.
  intros ((ys1 & O1 & F1) & (ws1 & W1) & (fs1 & I1) & B1)
         ((ys2 & O2 & F2) & (ws2 & W2) & (fs2 & I2) & B2).
  unfold port_discipline. split; [|split; [|split]].
  - exists (ys1 ++ ys2). rewrite O2, O1, <- app_assoc. split; [reflexivity|].
    apply Forall_app. auto.
  - exists (ws1 ++ ws2). rewrite W1, W2, <- app_assoc. reflexivity.
  - exists (fs1 ++ fs2). rewrite I1, I2, <- app_assoc. reflexivity.
  - congruence.
Qed.

Lemma keeps_window_readincr : keeps port_discipline window_readincr.
Proof.
  intros s. unfold window_readincr.
  destruct (feat_win s) as [|v rest] eqn:E; [apply port_discipline_refl|].
  unfold port_discipline. cbn [fst feat_win w_stream out_stream feat_buf].
  split; [exists []; rewrite app_nil_r; auto|].
  split; [exists []; reflexivity|]. split; [exists [v]; exact E|reflexivity].
Qed.

Lemma keeps_readincr : keeps port_discipline readincr.
Proof.
  intros s. unfold readincr.
  destruct (w_stream s) as [|v rest] eqn:E; [apply port_discipline_refl|].
  unfold port_discipline. cbn [fst feat_win w_stream out_stream feat_buf].
  split; [exists []; rewrite app_nil_r; auto|].
  split; [exists [v]; exact E|]. split; [exists []; reflexivity|reflexivity].
Qed.

Lemma keeps_writeincr (v : Z) : is_int16 v -> keeps port_discipline (writeincr v).
Proof.
  intros Hv s. unfold writeincr, port_discipline.
  cbn [fst feat_win w_stream out_stream feat_buf].
  split; [exists [v]; auto|].
  split; [exists []; reflexivity|]. split; [exists []; reflexivity|reflexivity].
Qed.

Lemma keeps_buf_store (i v : Z) : keeps port_discipline (buf_store i v).
Proof.
  intros s. unfold buf_store.
  destruct (decide _); [|apply port_discipline_refl].
  unfold port_discipline. cbn [fst feat_win w_stream out_stream feat_buf].
  split; [exists []; rewrite app_nil_r; auto|].
  split; [exists []; reflexivity|]. split; [exists []; reflexivity|].
  apply length_insert.
Qed.

Lemma keeps_buf_load (i : Z) : keeps port_discipline (buf_load i).
Proof.
  intros s. unfold buf_load.
  destruct (feat_buf s !! Z.to_nat i); [|apply port_discipline_refl].
  destruct (decide _); apply port_discipline_refl.
Qed.

(** X6. In every invocation of a head kernel, for every configuration and
    every state, however the invocation ends: what was in the output
    stream stays, and every value appended to it is a 16-bit value; values
    are only taken from the front of the weight stream and of the feature
    window, never put back or reordered; and the static buffer keeps its
    size. *)
Theorem head_kernel_port_discipline (c : head_config) (s : kstate) :
  port_discipline s (fst (head_kernel c s)).
Proof.
  revert s. change (keeps port_discipline (head_kernel c)).
  pose proof port_discipline_refl as Hr. pose proof port_discipline_trans as Ht.
  unfold head_kernel. apply keeps_bind; [assumption| |intros _; apply keeps_bind;
    [assumption| |intros _]].
  - unfold load_phase, for_range. apply keeps_for_fold; [assumption..|]. intros i _.
    apply keeps_bind; [assumption|apply keeps_window_readincr|intros v].
    apply keeps_buf_store.
  - unfold compute_phase, for_range. apply keeps_for_fold; [assumption..|]. intros _ _.
    unfold output_channel.
    apply keeps_bind; [assumption|apply keeps_readincr|intros bias].
    apply keeps_bind; [assumption| |intros acc; apply keeps_writeincr, sat_q15_int16].
    unfold mac_loop. apply keeps_for_fold; [assumption..|]. intros ic acc.
    apply keeps_bind; [assumption|apply keeps_buf_load|intros f].
    apply keeps_bind; [assumption|apply keeps_readincr|intros w].
    apply keeps_ret. assumption.
  - unfold pad_phase, for_range. apply keeps_for_fold; [assumption..|]. intros _ _.
    apply keeps_writeincr. unfold is_int16. lia.
Qed.

(** ** Edge configurations *)

Lemma kernel_outputs_zero_width (c : head_config) (n : nat) :
  IN_CH c = 0 ->
  forall w : list Z,
    (n <= length w)%nat ->
    kernel_outputs c [] n w
    = map (fun bias => sat_q15 (Z.shiftr (cast_int32 bias) (SHIFT c))) (take n w).
Proof.
  intros Hin. induction n as [|n IH]; intros w Hn; [reflexivity|].
  destruct w as [|bias w]; [simpl in Hn; lia|].
  cbn [kernel_outputs]. unfold stride. rewrite Hin.
  change (Z.to_nat 0) with 0%nat. cbn [take drop map row_value mac_value].
  rewrite <- IH by (simpl in Hn; lia).
  rewrite drop_0. reflexivity.
Qed.

(** X7. A head of zero input width ([IN_CH = 0], with an empty static
    buffer) reads no feature: with [OUT_CH] values in the weight stream it
    takes exactly these, each a bias, and writes for each one the bias
    shifted right by [SHIFT] and saturated, then the padding zeros. *)
Theorem head_kernel_zero_width (c : head_config) (s : kstate) :
  IN_CH c = 0 -> 0 <= OUT_CH c ->
  feat_buf s = [] ->
  OUT_CH c <= Z.of_nat (length (w_stream s)) ->
  snd (head_kernel c s) = Done tt
  /\ out_stream (fst (head_kernel c s))
     = out_stream s
       ++ map (fun bias => sat_q15 (Z.shiftr (cast_int32 bias) (SHIFT c)))
            (take (Z.to_nat (OUT_CH c)) (w_stream s))
       ++ replicate (Z.to_nat (OUT_CH_PAD c - OUT_CH c)) 0
  /\ feat_win (fst (head_kernel c s)) = feat_win s
  /\ w_stream (fst (head_kernel c s)) = drop (Z.to_nat (OUT_CH c)) (w_stream s).
Proof.
  intros Hin Hout Hbuf Hw.
  assert (Hs : stride c = 1%nat) by (unfold stride; rewrite Hin; reflexivity).
  rewrite head_kernel_run by (rewrite ?Hbuf, ?Hin, ?Hs; simpl; lia).
  cbn [fst snd out_stream feat_win w_stream].
  rewrite Hin, Hs. change (Z.to_nat 0) with 0%nat. rewrite take_0, drop_0, Nat.mul_1_r.
  rewrite kernel_outputs_zero_width by (assumption || lia).
  rewrite <- app_assoc. auto.
Qed.

(** Three biases, the second saturating (zero-width head of the
    specification). *)
Lemma head_kernel_zero_width_witness :
  out_stream (fst (head_kernel (HeadConfig 0 3 3 1) (invoke [9] [100; 70000; -7] [])))
  = [] ++ map (fun bias => sat_q15 (Z.shiftr (cast_int32 bias) 1))
            (take (Z.to_nat 3) [100; 70000; -7])
       ++ replicate (Z.to_nat (3 - 3)) 0.
Proof.
  apply (head_kernel_zero_width (HeadConfig 0 3 3 1) (invoke [9] [100; 70000; -7] []));
    by_computation.
Defined.

(** X8. The padding loop runs from [OUT_CH] while below [OUT_CH_PAD]: a
    head whose padded width is not above its output width writes no
    padding, so that an invocation with enough input appends exactly
    [OUT_CH] values, which is more than [OUT_CH_PAD] when [OUT_CH_PAD <
    OUT_CH]. *)
Theorem head_kernel_without_padding (c : head_config) (s : kstate) :
  0 <= IN_CH c -> 0 <= OUT_CH c -> OUT_CH_PAD c <= OUT_CH c ->
  length (feat_buf s) = Z.to_nat (IN_CH c) ->
  IN_CH c <= Z.of_nat (length (feat_win s)) ->
  OUT_CH c * (1 + IN_CH c) <= Z.of_nat (length (w_stream s)) ->
  snd (head_kernel c s) = Done tt
  /\ out_stream (fst (head_kernel c s))
     = out_stream s
       ++ kernel_outputs c (take (Z.to_nat (IN_CH c)) (feat_win s)) (Z.to_nat (OUT_CH c))
            (w_stream s)
  /\ Z.of_nat (length (out_stream (fst (head_kernel c s))))
     = Z.of_nat (length (out_stream s)) + OUT_CH c.
Proof.
  intros Hin Hout Hpad Hbuf Hfeat Hw.
  assert (Hstride := stride_Z c Hin Hout).
  rewrite head_kernel_run by (assumption || lia).
  cbn [fst snd out_stream].
  replace (Z.to_nat (OUT_CH_PAD c - OUT_CH c)) with 0%nat by lia.
  cbn [replicate]. rewrite app_nil_r.
  split; [reflexivity|]. split; [reflexivity|].
  rewrite length_app, length_kernel_outputs. lia.
Qed.

(** A head of two outputs declared with a padded width of one. *)
Lemma head_kernel_without_padding_witness :
  out_stream (fst (head_kernel (HeadConfig 1 2 1 0) (invoke [3] [1; 2; 10; 20] [0])))
  = [] ++ kernel_outputs (HeadConfig 1 2 1 0) (take (Z.to_nat 1) [3]) (Z.to_nat 2)
            [1; 2; 10; 20].
Proof.
  apply (head_kernel_without_padding (HeadConfig 1 2 1 0) (invoke [3] [1; 2; 10; 20] [0]));
    by_computation.
Defined.

(** ** The three kernels of the graph *)

Lemma head_kernel_budget (c : head_config) (s : kstate) (weights : Z) :
  0 <= IN_CH c -> 0 <= OUT_CH c <= OUT_CH_PAD c ->
  weights = OUT_CH c * (1 + IN_CH c) ->
  length (feat_buf s) = Z.to_nat (IN_CH c) ->
  IN_CH c <= Z.of_nat (length (feat_win s)) ->
  weights <= Z.of_nat (length (w_stream s)) ->
  snd (head_kernel c s) = Done tt
  /\ Z.of_nat (length (out_stream (fst (head_kernel c s))))
     = Z.of_nat (length (out_stream s)) + OUT_CH_PAD c
  /\ drop (length (out_stream s) + Z.to_nat (OUT_CH c)) (out_stream (fst (head_kernel c s)))
     = replicate (Z.to_nat (OUT_CH_PAD c - OUT_CH c)) 0
  /\ Forall is_int16 (drop (length (out_stream s)) (out_stream (fst (head_kernel c s))))
  /\ Z.of_nat (length (w_stream (fst (head_kernel c s))))
     = Z.of_nat (length (w_stream s)) - weights
  /\ Z.of_nat (length (feat_win (fst (head_kernel c s))))
     = Z.of_nat (length (feat_win s)) - IN_CH c.
Proof.
  intros Hin [Hout Hpad] -> Hbuf Hfeat Hw.
  assert (Hstride := stride_Z c Hin Hout).
  rewrite head_kernel_run by (assumption || lia).
  cbn [fst snd out_stream w_stream feat_win].
  split; [reflexivity|]. split; [|split; [|split; [|split]]].
  - rewrite !length_app, length_kernel_outputs, length_replicate. lia.
  - rewrite <- app_assoc, drop_app_add.
    rewrite drop_app_length' by (rewrite length_kernel_outputs; reflexivity).
    reflexivity.
  - rewrite <- app_assoc, drop_app_length. apply Forall_app. split.
    + apply kernel_outputs_int16.
    + apply Forall_replicate. unfold is_int16. lia.
  - rewrite length_drop. lia.
  - rewrite length_drop. lia.
Qed.

(** X9. The three kernels of the graph, on every state whose static buffer
    has its 1152 entries and whose feature window holds 1152 values: with
    224835, 134901 and 1153 values in the weight stream, [pose3d_head_kernel],
    [world_head_kernel] and [flag_head_kernel] end normally, having taken
    exactly 1152 features and 224835, 134901 and 1153 weights, and having
    appended 200, 120 and 8 values, all of them 16-bit values, the last 5,
    3 and 7 of them zeros. *)
Theorem graph_kernels_port_budget (s : kstate) :
  length (feat_buf s) = 1152%nat ->
  1152 <= Z.of_nat (length (feat_win s)) ->
  (224835 <= Z.of_nat (length (w_stream s)) ->
   snd (pose3d_head_kernel s) = Done tt
   /\ Z.of_nat (length (out_stream (fst (pose3d_head_kernel s))))
      = Z.of_nat (length (out_stream s)) + 200
   /\ drop (length (out_stream s) + 195) (out_stream (fst (pose3d_head_kernel s)))
      = replicate 5 0
   /\ Forall is_int16 (drop (length (out_stream s)) (out_stream (fst (pose3d_head_kernel s))))
   /\ Z.of_nat (length (w_stream (fst (pose3d_head_kernel s))))
      = Z.of_nat (length (w_stream s)) - 224835
   /\ Z.of_nat (length (feat_win (fst (pose3d_head_kernel s))))
      = Z.of_nat (length (feat_win s)) - 1152)
  /\ (134901 <= Z.of_nat (length (w_stream s)) ->
      snd (world_head_kernel s) = Done tt
      /\ Z.of_nat (length (out_stream (fst (world_head_kernel s))))
         = Z.of_nat (length (out_stream s)) + 120
      /\ drop (length (out_stream s) + 117) (out_stream (fst (world_head_kernel s)))
         = replicate 3 0
      /\ Forall is_int16 (drop (length (out_stream s)) (out_stream (fst (world_head_kernel s))))
      /\ Z.of_nat (length (w_stream (fst (world_head_kernel s))))
         = Z.of_nat (length (w_stream s)) - 134901
      /\ Z.of_nat (length (feat_win (fst (world_head_kernel s))))
         = Z.of_nat (length (feat_win s)) - 1152)
  /\ (1153 <= Z.of_nat (length (w_stream s)) ->
      snd (flag_head_kernel s) = Done tt
      /\ Z.of_nat (length (out_stream (fst (flag_head_kernel s))))
         = Z.of_nat (length (out_stream s)) + 8
      /\ drop (length (out_stream s) + 1) (out_stream (fst (flag_head_kernel s)))
         = replicate 7 0
      /\ Forall is_int16 (drop (length (out_stream s)) (out_stream (fst (flag_head_kernel s))))
      /\ Z.of_nat (length (w_stream (fst (flag_head_kernel s))))
         = Z.of_nat (length (w_stream s)) - 1153
      /\ Z.of_nat (length (feat_win (fst (flag_head_kernel s))))
         = Z.of_nat (length (feat_win s)) - 1152).
Proof.
  intros Hbuf Hfeat. split; [|split]; intros Hw.
  - apply (head_kernel_budget POSE3D s 224835); try assumption; by_computation.
  - apply (head_kernel_budget WORLD s 134901); try assumption; by_computation.
  - apply (head_kernel_budget FLAG s 1153); try assumption; by_computation.
Qed.

(** The flag kernel on the overflowing input. *)
Lemma graph_kernels_port_budget_witness :
  Z.of_nat (length (out_stream (fst (flag_head_kernel
                                       (invoke overflow_feat overflow_w (replicate 1152 0))))))
  = 0 + 8.
Proof.
  destruct (graph_kernels_port_budget (invoke overflow_feat overflow_w (replicate 1152 0)))
    as (_ & _ & F).
  - reflexivity.
  - by_computation.
  - apply F. by_computation.
Defined.

(** ** More on the movers *)

(** X10. For every buffer and every stream holding at least [num_words]
    words, with start offset and count unsigned 32-bit values and
    [start_addr + num_words] within the buffer length and not above 2^32:
    [output_mover] ends normally, takes the first [num_words] words off
    the stream and leaves the rest, writes them in order to
    [buffer[start_addr ..  start_addr + num_words)], and changes neither
    the length of the buffer nor any word outside that range. *)
Theorem output_mover_writes_slice (buffer st : list Z) (num_words start_addr : Z) :
  is_uint32 num_words -> is_uint32 start_addr ->
  start_addr + num_words <= Z.of_nat (length buffer) ->
  start_addr + num_words <= 4294967296 ->
  num_words <= Z.of_nat (length st) ->
  let r := output_mover num_words start_addr (MState buffer st) in
  snd r = Done tt
  /\ stream (fst r) = drop (Z.to_nat num_words) st
  /\ slice start_addr num_words (mem (fst r)) = take (Z.to_nat num_words) st
  /\ length (mem (fst r)) = length buffer
  /\ (forall j : nat,
        (j < Z.to_nat start_addr \/ Z.to_nat (start_addr + num_words) <= j)%nat ->
        mem (fst r) !! j = buffer !! j).
Proof.
  intros Hn Hs Hlen Hwrap Hst r. subst r. unfold is_uint32 in Hn, Hs.
  assert (Ht : length (take (Z.to_nat num_words) st) = Z.to_nat num_words)
    by (rewrite length_take; lia).
  assert (R : output_mover num_words start_addr (MState buffer st)
              = (MState (take (Z.to_nat start_addr) buffer ++ take (Z.to_nat num_words) st
                         ++ drop (Z.to_nat (start_addr + num_words)) buffer)
                   (drop (Z.to_nat num_words) st), Done tt)).
  { rewrite <- (take_drop (Z.to_nat num_words) st) at 1.
    apply output_mover_run; unfold is_uint32; lia. }
  rewrite R. cbn [fst snd mem stream].
  split; [reflexivity|]. split; [reflexivity|]. split; [|split].
  - unfold slice. rewrite drop_app_length' by (rewrite length_take; lia).
    rewrite take_app_length' by lia. reflexivity.
  - rewrite !length_app, length_take, length_drop. lia.
  - intros j [Hj|Hj].
    + rewrite lookup_app_l by (rewrite length_take; lia).
      apply lookup_take_lt. exact Hj.
    + rewrite lookup_app_r by (rewrite length_take; lia).
      rewrite lookup_app_r by (rewrite !length_take; lia).
      rewrite lookup_drop. f_equal. rewrite !length_take. lia.
Qed.

(** The testbench of [output_mover] with four more words on the stream. *)
Lemma output_mover_writes_slice_witness :
  stream (fst (output_mover 16 8 (MState (replicate 64 0) (map Z.of_nat (seq 2000 20)))))
  = drop (Z.to_nat 16) (map Z.of_nat (seq 2000 20)).
Proof.
  apply (output_mover_writes_slice (replicate 64 0) (map Z.of_nat (seq 2000 20)) 16 8);
    by_computation.
Defined.

(** X11. With fewer than [num_words] words on the stream, under the same
    conditions on the range, [output_mover] suspends after writing every
    word there is, in order, from [buffer[start_addr]] on: the stream is
    empty and the buffer is changed in part. *)
Theorem output_mover_starved (buffer st : list Z) (num_words start_addr : Z) :
  is_uint32 num_words -> is_uint32 start_addr ->
  start_addr + num_words <= Z.of_nat (length buffer) ->
  start_addr + num_words <= 4294967296 ->
  Z.of_nat (length st) < num_words ->
  output_mover num_words start_addr (MState buffer st)
  = (MState (take (Z.to_nat start_addr) buffer ++ st
             ++ drop (Z.to_nat start_addr + length st) buffer) [], Blocked).
Proof.
  intros Hn Hs Hlen Hwrap Hst. unfold output_mover, for_range. rewrite Z.sub_0_r.
  unfold is_uint32 in Hn.
  replace (Z.to_nat num_words) with (length st + S (Z.to_nat num_words - length st - 1))%nat
    by lia.
  rewrite for_fold_add, bind_run.
  rewrite <- (app_nil_r st) at 2.
  rewrite (output_mover_loop start_addr Hs st 0) by (unfold is_uint32 in Hs; lia).
  rewrite for_fold_S, !bind_run. cbn [stream_read stream].
  rewrite !Nat.add_0_r. reflexivity.
Qed.

(** Three words where four are to be moved. *)
Lemma output_mover_starved_witness :
  output_mover 4 1 (MState [0; 0; 0; 0; 0; 0] [7; 8; 9])
  = (MState [0; 7; 8; 9; 0; 0] [], Blocked).
Proof.
  apply (output_mover_starved [0; 0; 0; 0; 0; 0] [7; 8; 9] 4 1); by_computation.
Defined.

(** Two loops whose bodies agree index by index. *)
Lemma for_fold_reindex {St A : Type} (body1 body2 : Z -> A -> prog St A) (n : nat) :
  forall (i j : Z),
    (forall (k : Z) (a : A) (s : St), 0 <= k -> body1 (i + k) a s = body2 (j + k) a s) ->
    forall (a : A) (s : St), for_fold n i body1 a s = for_fold n j body2 a s.
Proof.
  induction n as [|n IH]; intros i j Hb a s; [reflexivity|].
  rewrite !for_fold_S, !bind_run.
  pose proof (Hb 0 a s ltac:(lia)) as H0. rewrite !Z.add_0_r in H0. rewrite H0.
  destruct (body2 j a s) as [s1 [a1| | |msg]]; try reflexivity.
  apply IH. intros k a' s' Hk.
  replace (i + 1 + k) with (i + (1 + k)) by lia.
  replace (j + 1 + k) with (j + (1 + k)) by lia.
  apply Hb. lia.
Qed.

Lemma cast_uint32_add_l (x y : Z) : cast_uint32 (cast_uint32 x + y) = cast_uint32 (x + y).
Proof. unfold cast_uint32. apply Zplus_mod_idemp_l. Qed.

(** X12. A transfer can be split at any point: for all counts [n1] and
    [n2] that are not negative, every start offset and every state, moving
    [n1 + n2] words from [start_addr] is moving [n1] words from
    [start_addr] and then [n2] words from the unsigned 32-bit value of
    [start_addr + n1], with the same final state and the same outcome, for
    [feat_mover] and for [output_mover]. *)
Theorem movers_split (n1 n2 start_addr : Z) (s : mstate) :
  0 <= n1 -> 0 <= n2 ->
  feat_mover (n1 + n2) start_addr s
  = (feat_mover n1 start_addr ;;; feat_mover n2 (cast_uint32 (start_addr + n1))) s
  /\ output_mover (n1 + n2) start_addr s
     = (output_mover n1 start_addr ;;; output_mover n2 (cast_uint32 (start_addr + n1))) s.
Proof.
  intros H1 H2. unfold feat_mover, output_mover, for_range. rewrite !Z.sub_0_r.
  replace (Z.to_nat (n1 + n2)) with (Z.to_nat n1 + Z.to_nat n2)%nat by lia.
  rewrite !for_fold_add. split.
  - apply bind_ext. intros [] s'. apply for_fold_reindex. intros k [] s'' Hk.
    rewrite cast_uint32_add_l. do 3 f_equal. lia.
  - apply bind_ext. intros [] s'. apply for_fold_reindex. intros k [] s'' Hk.
    rewrite cast_uint32_add_l. do 3 f_equal. lia.
Qed.

(** The testbench of [feat_mover], in bursts of 10 and 6 words. *)
Lemma movers_split_witness :
  feat_mover (10 + 6) 4 (MState (map Z.of_nat (seq 0 64)) [])
  = (feat_mover 10 4 ;;; feat_mover 6 (cast_uint32 (4 + 10)))
      (MState (map Z.of_nat (seq 0 64)) []).
Proof.
  apply (movers_split 10 6 4 (MState (map Z.of_nat (seq 0 64)) [])); by_computation.
Defined.

(** ** More on saturation *)

(** X13. [sat_q15] always returns a 16-bit value, returns its argument
    exactly when the argument is a 16-bit value, is idempotent, and
    preserves order: a larger accumulator never gives a smaller output. *)
Theorem sat_q15_order (x y : Z) :
  is_int16 (sat_q15 x)
  /\ (sat_q15 x = x <-> is_int16 x)
  /\ sat_q15 (sat_q15 x) = sat_q15 x
  /\ (x <= y -> sat_q15 x <= sat_q15 y).
Proof.
  rewrite !sat_q15_clamp. unfold is_int16. repeat split; lia.
Qed.

(** ** The host and the kernels together *)

Lemma save_kernel_outputs (c : head_config) (writable : string -> bool) (path : string)
    (feat w scratch : list Z) (elems : Z) (text : string) :
  0 <= IN_CH c -> 0 <= OUT_CH c ->
  elems = OUT_CH c ->
  writable path = true ->
  length scratch = Z.to_nat (IN_CH c) ->
  IN_CH c <= Z.of_nat (length feat) ->
  OUT_CH c * (1 + IN_CH c) <= Z.of_nat (length w) ->
  save_txt writable path
    (from_device elems (out_stream (fst (head_kernel c (invoke feat w scratch))))) elems text
  = (lines_text (map (wrapped_output c (take (Z.to_nat (IN_CH c)) feat))
                   (weight_rows c (Z.to_nat (OUT_CH c)) w)), Done tt).
Proof.
  intros Hin Hout -> Hwr Hbuf Hfeat Hw.
  assert (Hstride := stride_Z c Hin Hout).
  rewrite head_kernel_run by (cbn [invoke feat_buf feat_win w_stream]; assumption || lia).
  cbn [fst out_stream invoke feat_win w_stream app].
  destruct (save_head_run writable path
              (kernel_outputs c (take (Z.to_nat (IN_CH c)) feat) (Z.to_nat (OUT_CH c)) w
               ++ replicate (Z.to_nat (OUT_CH_PAD c - OUT_CH c)) 0)
              (OUT_CH c) text Hwr) as [E _].
  - rewrite length_app, length_kernel_outputs. lia.
  - apply Forall_app. split; [apply kernel_outputs_int16|].
    apply Forall_replicate. unfold is_int16. lia.
  - rewrite E. rewrite take_app_length' by (rewrite length_kernel_outputs; reflexivity).
    rewrite kernel_outputs_rows. reflexivity.
Qed.

(** X14. The kernels and [main] together: for every feature window of at
    least 1152 values and every weight stream with the rows of the head,
    whatever the static buffer held, the text [main] saves for the output
    of [pose3d_head_kernel], [world_head_kernel] and [flag_head_kernel] has
    one line per output channel (195, 117 and 1 lines), in order: the
    decimal value of the row's exact sum reduced to 32 bits, shifted and
    saturated.  None of the padding zeros is saved. *)
Theorem saved_text_of_kernels (writable : string -> bool) (data_dir : string)
    (feat w scratch : list Z) (text : string) :
  (forall path, writable path = true) ->
  length scratch = 1152%nat ->
  1152 <= Z.of_nat (length feat) ->
  (224835 <= Z.of_nat (length w) ->
   save_pose3d writable data_dir
     (out_stream (fst (pose3d_head_kernel (invoke feat w scratch)))) text
   = (lines_text (map (wrapped_output POSE3D (take 1152 feat)) (weight_rows POSE3D 195 w)),
      Done tt))
  /\ (134901 <= Z.of_nat (length w) ->
      save_world writable data_dir
        (out_stream (fst (world_head_kernel (invoke feat w scratch)))) text
      = (lines_text (map (wrapped_output WORLD (take 1152 feat)) (weight_rows WORLD 117 w)),
         Done tt))
  /\ (1153 <= Z.of_nat (length w) ->
      save_flag writable data_dir
        (out_stream (fst (flag_head_kernel (invoke feat w scratch)))) text
      = (lines_text (map (wrapped_output FLAG (take 1152 feat)) (weight_rows FLAG 1 w)),
         Done tt)).
Proof.
  intros Hwr Hbuf Hfeat. split; [|split]; intros Hw.
  - apply (save_kernel_outputs POSE3D); try assumption; try apply Hwr; by_computation.
  - apply (save_kernel_outputs WORLD); try assumption; try apply Hwr; by_computation.
  - apply (save_kernel_outputs FLAG); try assumption; try apply Hwr; by_computation.
Qed.

(** The flag head on the overflowing input: one line, [-32768]. *)
Lemma saved_text_of_kernels_witness :
  save_flag (fun _ => true) "data"
    (out_stream (fst (flag_head_kernel (invoke overflow_feat overflow_w (replicate 1152 0)))))
    "stale"
  = (lines_text (map (wrapped_output FLAG (take 1152 overflow_feat))
                   (weight_rows FLAG 1 overflow_w)), Done tt).
Proof.
  destruct (saved_text_of_kernels (fun _ => true) "data" overflow_feat overflow_w
              (replicate 1152 0) "stale") as (_ & _ & F).
  - reflexivity.
  - reflexivity.
  - by_computation.
  - apply F. by_computation.
Defined.

(** ** More on [load_bin] *)

(** X15. [load_bin] for every element size and count whose size in bytes
    fits a [std::streamsize], on every file system: a file that cannot be
    opened makes it throw and leaves the buffer as it was; so does a file
    with fewer bytes than needed; and from a file with at least the needed
    bytes, into a buffer of at least as many, it copies exactly the first
    [elems * sizeof(T)] bytes of the file to the start of the buffer,
    ignoring the rest of the file and keeping the rest and the length of
    the buffer. *)
Theorem load_bin_contract (fs : string -> option (list Byte.byte)) (sizeof_T : Z)
    (path : string) (elems : Z) (buf : list Byte.byte) :
  0 <= elems * sizeof_T <= 9223372036854775807 ->
  match fs path with
  | None =>
      load_bin fs sizeof_T path elems buf
      = (buf, Raised ("Failed to open binary file: " +:+ path))
  | Some content =>
      (Z.of_nat (length content) < elems * sizeof_T ->
       exists msg, load_bin fs sizeof_T path elems buf = (buf, Raised msg))
      /\ (elems * sizeof_T <= Z.of_nat (length content) ->
          elems * sizeof_T <= Z.of_nat (length buf) ->
          snd (load_bin fs sizeof_T path elems buf) = Done tt
          /\ take (Z.to_nat (elems * sizeof_T)) (fst (load_bin fs sizeof_T path elems buf))
             = take (Z.to_nat (elems * sizeof_T)) content
          /\ drop (Z.to_nat (elems * sizeof_T)) (fst (load_bin fs sizeof_T path elems buf))
             = drop (Z.to_nat (elems * sizeof_T)) buf
          /\ length (fst (load_bin fs sizeof_T path elems buf)) = length buf)
  end.
Proof.
  intros Hfit. destruct (fs path) as [content|] eqn:Hfs.
  - destruct (load_bin_run fs sizeof_T path elems content buf Hfs Hfit) as [Hsmall Hlarge].
    split.
    + intros H. eexists. apply Hsmall. exact H.
    + intros Hc Hb. rewrite (Hlarge Hc Hb). cbn [fst snd].
      assert (Hl : length (take (Z.to_nat (elems * sizeof_T)) content)
                   = Z.to_nat (elems * sizeof_T)) by (rewrite length_take; lia).
      split; [reflexivity|]. split; [|split].
      * rewrite take_app_length' by (symmetry; exact Hl). reflexivity.
      * rewrite drop_app_length' by (symmetry; exact Hl). reflexivity.
      * rewrite length_app, Hl, length_drop. lia.
  - unfold load_bin. rewrite Hfs. reflexivity.
Qed.

(** Two 32-bit elements from a file of ten bytes into a buffer of nine. *)
Lemma load_bin_contract_witness :
  snd (load_bin (fun _ => Some (replicate 10 Byte.x2a)) 4 "f.bin" 2 (replicate 9 Byte.x00))
  = Done tt
  /\ fst (load_bin (fun _ => Some (replicate 10 Byte.x2a)) 4 "f.bin" 2 (replicate 9 Byte.x00))
     = replicate 8 Byte.x2a ++ [Byte.x00].
Proof.
  pose proof (load_bin_contract (fun _ => Some (replicate 10 Byte.x2a)) 4 "f.bin" 2
                (replicate 9 Byte.x00)) as H.
  cbv beta iota in H. destruct H as [_ H]; [by_computation|].
  destruct H as (D & _); [by_computation|by_computation|].
  split; [exact D|reflexivity].
Defined.

(** X16. The three feature buffers of [main] receive the same data: from
    a feature file of at least 2304 bytes, the three [load_bin] calls, for
    the pose, world and flag heads, end normally and leave in the first
    2304 bytes of each buffer the first 2304 bytes of the file, whatever
    the buffers held. *)
Theorem feature_loads_agree (fs : string -> option (list Byte.byte)) (feat_bin : string)
    (content pose3d_feat world_feat flag_feat : list Byte.byte) :
  fs feat_bin = Some content ->
  2304 <= Z.of_nat (length content) ->
  2304 <= Z.of_nat (length pose3d_feat) ->
  2304 <= Z.of_nat (length world_feat) ->
  2304 <= Z.of_nat (length flag_feat) ->
  let r1 := load_bin fs sizeof_int16 feat_bin pose3d_feat_elems pose3d_feat in
  let r2 := load_bin fs sizeof_int16 feat_bin world_feat_elems world_feat in
  let r3 := load_bin fs sizeof_int16 feat_bin flag_feat_elems flag_feat in
  snd r1 = Done tt /\ snd r2 = Done tt /\ snd r3 = Done tt
  /\ take 2304 (fst r1) = take 2304 content
  /\ take 2304 (fst r2) = take 2304 content
  /\ take 2304 (fst r3) = take 2304 content.
Proof.
  intros Hfs Hc H1 H2 H3 r1 r2 r3.
  assert (Hl : length (take 2304 content) = 2304%nat) by (rewrite length_take; lia).
  assert (R : forall elems buf,
             elems * sizeof_int16 = 2304 -> 2304 <= Z.of_nat (length buf) ->
             load_bin fs sizeof_int16 feat_bin elems buf
             = (take 2304 content ++ drop 2304 buf, Done tt)).
  { intros elems buf He Hb.
    destruct (load_bin_run fs sizeof_int16 feat_bin elems content buf Hfs) as [_ L];
      [lia|].
    rewrite L by lia. rewrite He. reflexivity. }
  subst r1 r2 r3. rewrite !R by (assumption || reflexivity). cbn [fst snd].
  rewrite !take_app_length' by (symmetry; exact Hl). auto 10.
Qed.

(** A feature file of 2400 bytes and three buffers of different content. *)
Lemma feature_loads_agree_witness :
  take 2304 (fst (load_bin (fun _ => Some (replicate 2400 Byte.x2a)) sizeof_int16
                    "posehead_input_q15.bin" pose3d_feat_elems (replicate 2304 Byte.x00)))
  = take 2304 (replicate 2400 Byte.x2a).
Proof.
  apply (feature_loads_agree (fun _ => Some (replicate 2400 Byte.x2a))
           "posehead_input_q15.bin" (replicate 2400 Byte.x2a)
           (replicate 2304 Byte.x00) (replicate 2304 Byte.x01) (replicate 2305 Byte.xff)).
  - reflexivity.
  - by_computation.
  - by_computation.
  - by_computation.
  - by_computation.
Defined.

(** X17. The size needed is computed in [std::size_t]: for an element
    count whose size in bytes is a multiple of 2^64 and not zero, the
    product wraps to 0, the check of the file size passes for every file
    that can be opened, and [load_bin] ends normally without copying a
    byte, although the file is shorter than the size asked for. *)
Theorem load_bin_size_wraps (fs : string -> option (list Byte.byte)) (sizeof_T : Z)
    (path : string) (elems : Z) (content buf : list Byte.byte) :
  fs path = Some content ->
  0 < elems * sizeof_T ->
  (elems * sizeof_T) mod 18446744073709551616 = 0 ->
  Z.of_nat (length content) < elems * sizeof_T ->
  load_bin fs sizeof_T path elems buf = (buf, Done tt).
Proof.
  intros Hfs Hpos Hmod Hshort. unfold load_bin. rewrite Hfs.
  unfold cast_uint64. change (2 ^ 64) with 18446744073709551616. rewrite Hmod.
  change (cast_int64 0) with 0. cbv zeta.
  destruct (Z.ltb_spec (Z.of_nat (length content)) 0); [lia|].
  destruct (Z.ltb_spec (Z.of_nat (length buf)) 0); [lia|].
  change (Z.to_nat 0) with 0%nat. rewrite take_0. reflexivity.
Qed.

(** 2^63 elements of two bytes from a file of three bytes. *)
Lemma load_bin_size_wraps_witness :
  load_bin (fun _ => Some [Byte.x01; Byte.x02; Byte.x03]) sizeof_int16 "f.bin"
    9223372036854775808 [Byte.xff; Byte.xff]
  = ([Byte.xff; Byte.xff], Done tt).
Proof.
  apply (load_bin_size_wraps (fun _ => Some [Byte.x01; Byte.x02; Byte.x03]) sizeof_int16
           "f.bin" 9223372036854775808 [Byte.x01; Byte.x02; Byte.x03]).
  - reflexivity.
  - by_computation.
  - reflexivity.
  - by_computation.
Defined.

(** ** More on [save_txt] *)

Lemma count_lines_String (a : ascii) (s : string) :
  count_lines (String a s) = O -> Ascii.eqb a (ascii_of_nat 10) = false /\ count_lines s = O.
Proof. cbn [count_lines]. destruct (Ascii.eqb a _); [discriminate|auto]. Qed.

(** Two texts that agree up to their first newline and after it. *)
Lemma append_newline_inj (s1 : string) :
  forall (s2 t1 t2 : string),
    count_lines s1 = O -> count_lines s2 = O ->
    s1 +:+ String (ascii_of_nat 10) t1 = s2 +:+ String (ascii_of_nat 10) t2 ->
    s1 = s2 /\ t1 = t2.
Proof.
  induction s1 as [|a s1 IH]; intros s2 t1 t2 H1 H2 E.
  - destruct s2 as [|b s2].
    + simpl in E. inversion E. auto.
    + apply count_lines_String in H2 as [Hb _].
      simpl in E. inversion E as [[Hab Ht]]. subst b.
      rewrite Ascii.eqb_refl in Hb. discriminate.
  - apply count_lines_String in H1 as [Ha H1].
    destruct s2 as [|b s2].
    + simpl in E. inversion E as [[Hab Ht]]. subst a.
      rewrite Ascii.eqb_refl in Ha. discriminate.
    + apply count_lines_String in H2 as [_ H2].
      change (String a (s1 +:+ String (ascii_of_nat 10) t1)
              = String b (s2 +:+ String (ascii_of_nat 10) t2)) in E.
      inversion E as [[Hab Ht]].
      destruct (IH s2 t1 t2 H1 H2 Ht) as [-> ->]. auto.
Qed.

Lemma to_int_nonnil (z : Z) :
  Z.to_int z <> Decimal.Pos Decimal.Nil /\ Z.to_int z <> Decimal.Neg Decimal.Nil.
Proof.
  destruct z as [|p|p]; simpl; split; try discriminate;
    intros H; inversion H as [Hp]; exact (Unsigned.to_uint_nonnil p Hp).
Qed.

(** Different integers have different decimal texts. *)
Lemma to_string_inj (z1 z2 : Z) : to_string z1 = to_string z2 -> z1 = z2.
Proof.
  unfold to_string. intros E. apply to_int_inj.
  apply (f_equal NilZero.int_of_string) in E.
  destruct (to_int_nonnil z1) as [P1 N1]. destruct (to_int_nonnil z2) as [P2 N2].
  rewrite !NilZero.isi in E by assumption. inversion E. reflexivity.
Qed.

Lemma lines_text_cons (v : Z) (vs : list Z) :
  lines_text (v :: vs) = to_string v +:+ String (ascii_of_nat 10) (lines_text vs).
Proof. reflexivity. Qed.

Lemma lines_text_inj (vs1 : list Z) :
  forall vs2 : list Z, lines_text vs1 = lines_text vs2 -> vs1 = vs2.
Proof.
  induction vs1 as [|v1 vs1 IH]; intros [|v2 vs2] E.
  - reflexivity.
  - rewrite lines_text_cons in E. cbn [lines_text] in E.
    destruct (to_string v2); discriminate.
  - rewrite lines_text_cons in E. cbn [lines_text] in E.
    destruct (to_string v1); discriminate.
  - rewrite !lines_text_cons in E.
    apply append_newline_inj in E as [Ev Er]; try apply count_lines_to_string.
    apply to_string_inj in Ev. apply IH in Er. congruence.
Qed.

(** X18. The text [save_txt] writes keeps every value: for two buffers of
    16-bit values with at least [elems] elements and a file that can be
    opened, if the two calls leave the same text in the file, whatever it
    held before, then the first [elems] values of the buffers are the same;
    and the text has exactly [elems] lines. *)
Theorem save_txt_lossless (writable : string -> bool) (path : string)
    (buf1 buf2 : list Z) (elems : Z) (text1 text2 : string) :
  writable path = true ->
  0 <= elems <= Z.of_nat (length buf1) ->
  0 <= elems <= Z.of_nat (length buf2) ->
  Forall is_int16 buf1 -> Forall is_int16 buf2 ->
  Z.of_nat (count_lines (fst (save_txt writable path buf1 elems text1))) = elems
  /\ (fst (save_txt writable path buf1 elems text1)
      = fst (save_txt writable path buf2 elems text2) ->
      take (Z.to_nat elems) buf1 = take (Z.to_nat elems) buf2).
Proof.
  intros Hw H1 H2 F1 F2.
  rewrite !save_txt_run by assumption. cbn [fst]. split.
  - rewrite count_lines_lines_text, length_take. lia.
  - apply lines_text_inj.
Qed.

(** Two buffers that differ after their first two elements only. *)
Lemma save_txt_lossless_witness :
  Z.of_nat (count_lines (fst (save_txt (fun _ => true) "out.txt" [180; -7; 5] 2 "stale"))) = 2.
Proof.
  apply (save_txt_lossless (fun _ => true) "out.txt" [180; -7; 5] [180; -7; 6; 0] 2
           "stale" "other").
  - reflexivity.
  - by_computation.
  - by_computation.
  - repeat constructor; by_computation.
  - repeat constructor; by_computation.
Defined.

(** ** Invocations in sequence *)

(** X19. Two invocations in sequence, as in a graph run of two iterations,
    on a feature window holding two feature vectors and a weight stream
    holding the rows twice: both end normally, and the second appends what
    it would append alone on the second feature vector and the second set
    of rows; nothing of the first vector, left in the static buffer, shows
    in its outputs. *)
Theorem head_kernel_twice (c : head_config) (s : kstate) :
  0 <= IN_CH c -> 0 <= OUT_CH c ->
  length (feat_buf s) = Z.to_nat (IN_CH c) ->
  2 * IN_CH c <= Z.of_nat (length (feat_win s)) ->
  2 * (OUT_CH c * (1 + IN_CH c)) <= Z.of_nat (length (w_stream s)) ->
  let n := Z.to_nat (IN_CH c) in
  let m := Z.to_nat (OUT_CH c * (1 + IN_CH c)) in
  let pad := replicate (Z.to_nat (OUT_CH_PAD c - OUT_CH c)) 0 in
  snd ((head_kernel c ;;; head_kernel c) s) = Done tt
  /\ out_stream (fst ((head_kernel c ;;; head_kernel c) s))
     = out_stream s
       ++ (kernel_outputs c (take n (feat_win s)) (Z.to_nat (OUT_CH c)) (w_stream s) ++ pad)
       ++ (kernel_outputs c (take n (drop n (feat_win s))) (Z.to_nat (OUT_CH c))
             (drop m (w_stream s)) ++ pad)
  /\ feat_win (fst ((head_kernel c ;;; head_kernel c) s)) = drop (n + n) (feat_win s)
  /\ w_stream (fst ((head_kernel c ;;; head_kernel c) s)) = drop (m + m) (w_stream s).
Proof.
  intros Hin Hout Hbuf Hfeat Hw n m pad.
  assert (Hstride := stride_Z c Hin Hout). fold m in Hstride.
  rewrite bind_run.
  rewrite head_kernel_run by (assumption || lia).
  rewrite head_kernel_run
    by (cbn [feat_buf feat_win w_stream]; rewrite ?length_take, ?length_drop; lia).
  cbn [fst snd out_stream feat_win w_stream]. fold n pad. rewrite Hstride.
  split; [reflexivity|]. split; [|split].
  - rewrite <- !app_assoc. reflexivity.
  - rewrite drop_drop. reflexivity.
  - rewrite drop_drop. reflexivity.
Qed.

(** The known-vector head on two feature vectors and two sets of rows. *)
Lemma head_kernel_twice_witness :
  out_stream (fst ((head_kernel (HeadConfig 2 1 2 0) ;;; head_kernel (HeadConfig 2 1 2 0))
                     (invoke [10; 20; 1; 1] [100; 2; 3; 0; 30000; 30000] [0; 0])))
  = [180; 0; 32767; 0].
Proof.
  destruct (head_kernel_twice (HeadConfig 2 1 2 0)
              (invoke [10; 20; 1; 1] [100; 2; 3; 0; 30000; 30000] [0; 0]))
    as (_ & O & _).
  - by_computation.
  - by_computation.
  - reflexivity.
  - by_computation.
  - by_computation.
  - rewrite O. reflexivity.
Defined.

(** ** What no transfer does *)

(** A relation that every iteration keeps is kept by the loop. *)
Lemma for_fold_invariant {St A : Type} (R : St -> St -> Prop)
    (body : Z -> A -> prog St A) :
  (forall s, R s s) ->
  (forall s1 s2 s3, R s1 s2 -> R s2 s3 -> R s1 s3) ->
  (forall i a s, R s (fst (body i a s))) ->
  forall (n : nat) (i : Z) (a : A) (s : St), R s (fst (for_fold n i body a s)).
Proof.
  intros Hrefl Htrans Hbody. induction n as [|n IH]; intros i a s.
  - apply Hrefl.
  - rewrite for_fold_S, bind_run. specialize (Hbody i a s).
    destruct (body i a s) as [s1 [a1| | |msg]]; cbn [fst] in *; try exact Hbody.
    eapply Htrans; [exact Hbody|apply IH].
Qed.

(** X20. For every count, every start offset and every state, however the
    transfer ends: [feat_mover] leaves the buffer as it was and only
    appends words to the stream; [output_mover] only takes words from the
    front of the stream and keeps the length of the buffer. *)
Theorem movers_discipline (num_words start_addr : Z) (s : mstate) :
  (mem (fst (feat_mover num_words start_addr s)) = mem s
   /\ exists ws, stream (fst (feat_mover num_words start_addr s)) = stream s ++ ws)
  /\ (length (mem (fst (output_mover num_words start_addr s))) = length (mem s)
      /\ exists ws, stream s = ws ++ stream (fst (output_mover num_words start_addr s))).
Proof.
  split.
  - unfold feat_mover, for_range.
    apply (for_fold_invariant
             (fun s s' => mem s' = mem s /\ exists ws, stream s' = stream s ++ ws)).
    + intros s0. split; [reflexivity|]. exists []. rewrite app_nil_r. reflexivity.
    + intros s1 s2 s3 [M1 [w1 S1]] [M2 [w2 S2]]. split; [congruence|].
      exists (w1 ++ w2). rewrite S2, S1, <- app_assoc. reflexivity.
    + intros i [] s0. rewrite bind_run. unfold mem_read.
      destruct (mem s0 !! _); [destruct (decide _)|]; cbn [fst stream_write mem stream].
      * split; [reflexivity|]. eexists. reflexivity.
      * split; [reflexivity|]. exists []. rewrite app_nil_r. reflexivity.
      * split; [reflexivity|]. exists []. rewrite app_nil_r. reflexivity.
  - unfold output_mover, for_range.
    apply (for_fold_invariant
             (fun s s' => length (mem s') = length (mem s)
                          /\ exists ws, stream s = ws ++ stream s')).
    + intros s0. split; [reflexivity|]. exists []. reflexivity.
    + intros s1 s2 s3 [M1 [w1 S1]] [M2 [w2 S2]]. split; [congruence|].
      exists (w1 ++ w2). rewrite S1, S2, <- app_assoc. reflexivity.
    + intros i [] s0. rewrite bind_run. unfold stream_read.
      destruct (stream s0) as [|v rest] eqn:E; cbn [fst].
      * split; [reflexivity|]. exists []. symmetry. exact E.
      * unfold mem_write. cbn [mem stream].
        destruct (decide _); cbn [fst mem stream].
        -- split; [apply length_insert|]. exists [v]. reflexivity.
        -- split; [reflexivity|]. exists [v]. reflexivity.
Qed.

(** ** The sizes of [main] against the kernels *)


